(** * Verification of the VTT transcript parser (vtt_parser.py)

    The development embeds the class [VTTParser] of [vtt_parser.py]:
    [parse_vtt_file], [_parse_timestamp], [_extract_speaker_and_text],
    [get_conversation_text] and [get_meeting_stats], together with the
    fragment of Python's [str], [dict], [set] and [re] semantics these
    methods rely on, and proves the properties the specification states
    about them. *)

From Stdlib Require Import ZArith NArith String Ascii.
From stdpp Require Import base option list strings.

(** ** Python strings

    A Python [str] is a sequence of Unicode code points; a character is
    its code point. *)

Module PyStr.

Abbreviation pystr := (list N).

(** The code points of an ASCII literal. *)
Definition py (lit : string) : pystr :=
  (λ a, N_of_ascii a) <$> list_ascii_of_string lit.

(** [str.isspace] on one character: the code points Python classifies as
    whitespace (also the class [\s] of [re] on [str] patterns). *)
Definition isspace (c : N) : bool :=
  ((9 <=? c) && (c <=? 13) || (28 <=? c) && (c <=? 32)
   || (c =? 133) || (c =? 160) || (c =? 5760)
   || (8192 <=? c) && (c <=? 8202)
   || (c =? 8232) || (c =? 8233) || (c =? 8239) || (c =? 8287)
   || (c =? 12288))%N.

(** Truth value of a string: [bool(s)]. *)
Definition truthy (s : pystr) : bool :=
  match s with [] => false | _ :: _ => true end.

Definition str_eqb (a b : pystr) : bool := bool_decide (a = b).

Fixpoint lstrip (s : pystr) : pystr :=
  match s with
  | c :: s' => if isspace c then lstrip s' else s
  | [] => []
  end.

Definition rstrip (s : pystr) : pystr := reverse (lstrip (reverse s)).

(** A string that does not start with whitespace. *)
Definition starts_clean (s : pystr) : Prop :=
  match s with
  | c :: _ => isspace c = false
  | [] => True
  end.

(** [s.strip()] *)
Definition strip (s : pystr) : pystr := rstrip (lstrip s).

(** [s.startswith(p)] *)
Fixpoint startswith (p s : pystr) : bool :=
  match p, s with
  | [], _ => true
  | a :: p', b :: s' => (a =? b)%N && startswith p' s'
  | _ :: _, [] => false
  end.

(** [sub in s] *)
Fixpoint contains (sub s : pystr) : bool :=
  startswith sub s ||
  match s with
  | _ :: s' => contains sub s'
  | [] => false
  end.

(** [s.split(sep)] for a non-empty separator: the pieces between the
    non-overlapping occurrences of [sep], found left to right.  [skip]
    counts the characters of a separator still to be passed over;
    the result is the piece under construction and the pieces after it. *)
Fixpoint split_from (sep s : pystr) (skip : nat) : pystr * list pystr :=
  match s with
  | [] => ([], [])
  | c :: s' =>
      match skip with
      | S k => split_from sep s' k
      | O =>
          if startswith sep s
          then let '(p, ps) := split_from sep s' (length sep - 1) in
               ([], p :: ps)
          else let '(p, ps) := split_from sep s' 0 in
               (c :: p, ps)
      end
  end.

Definition str_split (sep s : pystr) : list pystr :=
  let '(p, ps) := split_from sep s 0 in p :: ps.

(** [s.split()] without argument: the maximal runs of non-whitespace
    characters.  [cur] is the run under construction, reversed. *)
Fixpoint split_ws_from (s cur : pystr) : list pystr :=
  match s with
  | [] => if truthy cur then [reverse cur] else []
  | c :: s' =>
      if isspace c
      then (if truthy cur then reverse cur :: split_ws_from s' []
            else split_ws_from s' [])
      else split_ws_from s' (c :: cur)
  end.

Definition split_ws (s : pystr) : list pystr := split_ws_from s [].

(** [sep.join(parts)] *)
Fixpoint str_join (sep : pystr) (parts : list pystr) : pystr :=
  match parts with
  | [] => []
  | [p] => p
  | p :: ps => p ++ sep ++ str_join sep ps
  end.

End PyStr.
Export PyStr.

(** ** The fragment of [re] used by the parser

    A backtracking matcher for sequences of anchors, single-character
    classes, greedy repetitions of a class and capture groups, tried in
    the order Python's engine tries them. *)

Module Re.

Inductive cclass :=
| Lit (c : N)        (* the character itself *)
| NotLit (c : N)     (* [^c] *)
| Space              (* \s *)
| Dot.               (* . : anything but a newline *)

Inductive node :=
| Bol                          (* ^ *)
| Eol                          (* $ *)
| One (cl : cclass)
| Rep (cl : cclass) (min : nat)  (* greedy cl* (min 0) or cl+ (min 1) *)
| GOpen (g : nat)
| GClose (g : nat).

Definition in_class (cl : cclass) (c : N) : bool :=
  match cl with
  | Lit a => (c =? a)%N
  | NotLit a => negb (c =? a)%N
  | Space => isspace c
  | Dot => negb (c =? 10)%N
  end.

(** Positions where groups were opened, and the spans of closed groups. *)
Record caps := Caps {
  opened : list (nat * nat);
  closed : list (nat * (nat * nat))
}.

Fixpoint assoc {V} (k : nat) (l : list (nat * V)) : option V :=
  match l with
  | [] => None
  | (k', v) :: l' => if (k =? k')%nat then Some v else assoc k l'
  end.

Definition open_group (g pos : nat) (c : caps) : caps :=
  Caps ((g, pos) :: opened c) (closed c).

Definition close_group (g pos : nat) (c : caps) : caps :=
  match assoc g (opened c) with
  | Some b => Caps (opened c) ((g, (b, pos)) :: closed c)
  | None => c
  end.

(** [run p s pos c]: match the remaining pattern [p] against the rest [s]
    of the subject, which starts at offset [pos]. *)
Fixpoint run (p : list node) (s : pystr) (pos : nat) (c : caps)
  : option caps :=
  match p with
  | [] => Some c
  | Bol :: p' => if (pos =? 0)%nat then run p' s pos c else None
  | Eol :: p' =>
      match s with
      | [] => run p' s pos c
      | [10%N] => run p' s pos c
      | _ => None
      end
  | One cl :: p' =>
      match s with
      | a :: s' => if in_class cl a then run p' s' (S pos) c else None
      | [] => None
      end
  | Rep cl min :: p' =>
      (fix rep (s : pystr) (pos n : nat) {struct s} : option caps :=
         match s with
         | a :: s' =>
             if in_class cl a
             then match rep s' (S pos) (S n) with
                  | Some r => Some r
                  | None => if (min <=? n)%nat then run p' s pos c else None
                  end
             else if (min <=? n)%nat then run p' s pos c else None
         | [] => if (min <=? n)%nat then run p' s pos c else None
         end) s pos 0
  | GOpen g :: p' => run p' s pos (open_group g pos c)
  | GClose g :: p' => run p' s pos (close_group g pos c)
  end.

(** [re.match(p, s)]: the match is anchored at the start of [s]. *)
Definition re_match (p : list node) (s : pystr) : option caps :=
  run p s 0 (Caps [] []).

(** [m.group(g)] of a match on [s]. *)
Definition group (s : pystr) (m : caps) (g : nat) : pystr :=
  match assoc g (closed m) with
  | Some (b, e) => take (e - b) (drop b s)
  | None => []
  end.

End Re.

(** ** Python values, exceptions and dictionaries *)

Module Py.

Inductive exn :=
| OSError (msg : pystr)             (* [open] or [read] failed *)
| UnicodeDecodeError (msg : pystr)  (* the bytes are not UTF-8 *)
| IndexError
| KeyError
| TypeError.

(** Outcome of evaluating Python code: a value, or a raised exception. *)
Inductive res (A : Type) :=
| Ok (a : A)
| Raise (e : exn).
Arguments Ok {A} a.
Arguments Raise {A} e.

#[export] Instance res_ret : MRet res := λ A a, Ok a.
#[export] Instance res_bind : MBind res := λ A B f m,
  match m with
  | Ok a => f a
  | Raise e => Raise e
  end.

(** [for x in l: st = body(st, x)], stopping at the first exception. *)
Fixpoint for_each {S A} (body : S → A → res S) (st : S) (l : list A)
  : res S :=
  match l with
  | [] => Ok st
  | x :: l' => st' ← body st x; for_each body st' l'
  end.

(** [l[i]] for a non-negative index. *)
Definition index {A} (l : list A) (i : nat) : res A :=
  match l !! i with
  | Some x => Ok x
  | None => Raise IndexError
  end.

(** A [dict] with [str] keys: the entries in insertion order, each key
    once. *)
Definition dict (V : Type) := list (pystr * V).

Fixpoint dict_get {V} (d : dict V) (k : pystr) : option V :=
  match d with
  | [] => None
  | (k', v) :: d' => if str_eqb k' k then Some v else dict_get d' k
  end.

(** [k in d] *)
Definition dict_in {V} (k : pystr) (d : dict V) : bool :=
  match dict_get d k with
  | Some _ => true
  | None => false
  end.

(** [d[k] = v] *)
Fixpoint dict_set {V} (d : dict V) (k : pystr) (v : V) : dict V :=
  match d with
  | [] => [(k, v)]
  | (k', v') :: d' =>
      if str_eqb k' k then (k', v) :: d' else (k', v') :: dict_set d' k v
  end.

(** [d[k]] *)
Definition subscript {V} (d : dict V) (k : pystr) : res V :=
  match dict_get d k with
  | Some v => Ok v
  | None => Raise KeyError
  end.

(** One entry of the list under ['conversations']: a [dict] from [str]
    to [str]. *)
Definition conv := dict pystr.

(** The values stored in the dictionaries the parser returns and
    receives. *)
Inductive field :=
| FInt (n : Z)
| FStr (s : pystr)
| FStrList (l : list pystr)
| FConvList (l : list conv)
| FCounts (d : dict Z).

Definition pydict := dict field.

(** What iterating over or indexing a [field] yields. *)
Inductive item :=
| IConv (c : conv)
| IStr (s : pystr).

(** [bool(v)] *)
Definition field_truthy (v : field) : bool :=
  match v with
  | FInt n => negb (n =? 0)%Z
  | FStr s => truthy s
  | FStrList l => negb (bool_decide (l = []))
  | FConvList l => negb (bool_decide (l = []))
  | FCounts d => negb (bool_decide (d = []))
  end.

(** [len(v)] *)
Definition field_len (v : field) : res Z :=
  match v with
  | FInt _ => Raise TypeError
  | FStr s => Ok (Z.of_nat (length s))
  | FStrList l => Ok (Z.of_nat (length l))
  | FConvList l => Ok (Z.of_nat (length l))
  | FCounts d => Ok (Z.of_nat (length d))
  end.

(** The items [for x in v] runs through. *)
Definition field_iter (v : field) : res (list item) :=
  match v with
  | FInt _ => Raise TypeError
  | FStr s => Ok ((λ c, IStr [c]) <$> s)
  | FStrList l => Ok (IStr <$> l)
  | FConvList l => Ok (IConv <$> l)
  | FCounts d => Ok ((λ kv, IStr kv.1) <$> d)
  end.

(** [v[0]] and [v[-1]] *)
Definition field_first (v : field) : res item :=
  match v with
  | FInt _ => Raise TypeError
  | FCounts _ => Raise KeyError
  | _ => l ← field_iter v;
         match head l with Some x => Ok x | None => Raise IndexError end
  end.

Definition field_last (v : field) : res item :=
  match v with
  | FInt _ => Raise TypeError
  | FCounts _ => Raise KeyError
  | _ => l ← field_iter v;
         match last l with Some x => Ok x | None => Raise IndexError end
  end.

(** [x[k]] for a [str] key [k]: a [str] cannot be indexed by a [str]. *)
Definition item_subscript (x : item) (k : pystr) : res pystr :=
  match x with
  | IConv c => subscript c k
  | IStr _ => Raise TypeError
  end.

(** A [set] of [str].  The language fixes which strings a set holds, not
    the order in which [for x in s] and [list(s)] run through them.  In
    CPython that order follows the hashes of the strings, which are salted
    anew for every process unless [PYTHONHASHSEED] is set, and, where two
    hashes meet in the table, the order in which the strings were added.
    So a set is kept as the sequence of the [add] calls that built it,
    and the order is a parameter of the run of the interpreter. *)
Definition pyset := list pystr.

(** [set()] and [s.add(x)] *)
Definition set_new : pyset := [].

Definition set_add (x : pystr) (s : pyset) : pyset := s ++ [x].

(** [list(s)] in one run of the interpreter: some list of the members of
    [s], each once.  Nothing else is known of it, and two runs need not
    agree. *)
Record set_order := {
  iter_order : pyset → list pystr;
  iter_order_NoDup : ∀ s, NoDup (iter_order s);
  iter_order_elem : ∀ s x, x ∈ iter_order s ↔ x ∈ s
}.

End Py.
Export Py.

(** ** The class [VTTParser] *)

Module VTT.

Definition NL : pystr := [10%N].

(** The instance fields set by [__init__]. *)
Record VTTParser := {
  self_speakers : pyset;
  self_conversations : list conv
}.

Definition __init__ : VTTParser :=
  {| self_speakers := set_new; self_conversations := [] |}.

(** A line written by [print]. *)
Inductive printed :=
| Error_parsing_VTT_file (e : exn).   (* f"Error parsing VTT file: {e}" *)

(** The world a method runs in: what [open(path, 'r', encoding='utf-8')]
    followed by [read()] gives for each path, the order in which this run
    of the interpreter iterates over a set, and the standard output. *)
Record world := {
  read_file : pystr → res pystr;
  hash_order : set_order;
  stdout : list printed
}.

Definition print (p : printed) (w : world) : world :=
  {| read_file := read_file w; hash_order := hash_order w;
     stdout := stdout w ++ [p] |}.

(** [_parse_timestamp]: the bare [except] turns any exception of the body
    into the pair of empty strings. *)
Definition _parse_timestamp (timestamp_line : pystr) : pystr * pystr :=
  match
    (let times := str_split (py " --> ") timestamp_line in
     t0 ← index times 0;
     let start_time := strip t0 in
     t1 ← index times 1;
     let end_time := strip t1 in
     mret (start_time, end_time))
  with
  | Ok r => r
  | Raise _ => ([], [])
  end.

(** The pattern [r'^([^:]+):\s*(.+)$']. *)
Definition speaker_pattern : list Re.node :=
  [Re.Bol; Re.GOpen 1; Re.Rep (Re.NotLit 58) 1; Re.GClose 1;
   Re.One (Re.Lit 58); Re.Rep Re.Space 0;
   Re.GOpen 2; Re.Rep Re.Dot 1; Re.GClose 2; Re.Eol].

Definition _extract_speaker_and_text (speaker_text : pystr)
  : pystr * pystr :=
  match Re.re_match speaker_pattern speaker_text with
  | Some m =>
      let speaker := strip (Re.group speaker_text m 1) in
      let text := strip (Re.group speaker_text m 2) in
      (speaker, text)
  | None => ([], speaker_text)
  end.

(** The dictionary appended to [conversations]. *)
Definition mk_conv (start_time end_time speaker text : pystr) : conv :=
  [(py "start_time", start_time); (py "end_time", end_time);
   (py "speaker", speaker); (py "text", text)].

(** The body of [for block in blocks] on the local variables
    [conversations] and [speakers]; [continue] leaves them as they are. *)
Definition block_body (st : list conv * pyset) (block : pystr)
  : res (list conv * pyset) :=
  let '(conversations, speakers) := st in
  if negb (truthy (strip block)) || str_eqb (strip block) (py "WEBVTT")
  then Ok st
  else
    let lines := str_split NL (strip block) in
    if (length lines <? 3)%nat then Ok st
    else
      timestamp_line ← index lines 1;
      if negb (contains (py "-->") timestamp_line) then Ok st
      else
        let '(start_time, end_time) := _parse_timestamp timestamp_line in
        let speaker_text := str_join (py " ") (drop 2 lines) in
        let '(speaker, text) := _extract_speaker_and_text speaker_text in
        if truthy speaker && truthy text
        then Ok (conversations ++
                   [mk_conv start_time end_time speaker (strip text)],
                 set_add speaker speakers)
        else Ok st.

(** The [try] block of [parse_vtt_file] after the file was read, in a
    run of the interpreter that iterates over sets in [order]:
    [list(speakers)] is [iter_order order speakers]. *)
Definition parse_content (order : set_order) (content file_path : pystr)
  : res pydict :=
  let blocks := str_split (NL ++ NL) content in
  '(conversations, speakers) ← for_each block_body ([], set_new) blocks;
  mret [(py "conversations", FConvList conversations);
        (py "speakers", FStrList (iter_order order speakers));
        (py "total_entries", FInt (Z.of_nat (length conversations)));
        (py "file_path", FStr file_path)].

(** [parse_vtt_file]: [None] stands for Python's [None]. *)
Definition parse_vtt_file (self : VTTParser) (file_path : pystr)
  (w : world) : option pydict * VTTParser * world :=
  match content ← read_file w file_path;
        parse_content (hash_order w) content file_path
  with
  | Ok d => (Some d, self, w)
  | Raise e => (None, self, print (Error_parsing_VTT_file e) w)
  end.

(** The body of the loop of [get_conversation_text] on
    [(text_blocks, current_speaker, current_text)]. *)
Definition turn_body (st : list pystr * pystr * pystr) (conv : item)
  : res (list pystr * pystr * pystr) :=
  let '(text_blocks, current_speaker, current_text) := st in
  speaker ← item_subscript conv (py "speaker");
  text ← item_subscript conv (py "text");
  if str_eqb speaker current_speaker
  then Ok (text_blocks, current_speaker, current_text ++ py " " ++ text)
  else
    let text_blocks :=
      if truthy current_speaker && truthy current_text
      then text_blocks ++ [current_speaker ++ py ": " ++ current_text]
      else text_blocks in
    Ok (text_blocks, speaker, text).

Definition get_conversation_text (parsed_data : option pydict)
  : res pystr :=
  match parsed_data with
  | None => Ok []
  | Some d =>
      if bool_decide (d = []) || negb (dict_in (py "conversations") d)
      then Ok []
      else
        convs ← subscript d (py "conversations");
        items ← field_iter convs;
        '(text_blocks, current_speaker, current_text) ←
          for_each turn_body ([], [], []) items;
        let text_blocks :=
          if truthy current_speaker && truthy current_text
          then text_blocks ++ [current_speaker ++ py ": " ++ current_text]
          else text_blocks in
        Ok (str_join (NL ++ NL) text_blocks)
  end.

(** The body of the word-count loop of [get_meeting_stats] on
    [speaker_stats]. *)
Definition count_body (speaker_stats : dict Z) (conv : item)
  : res (dict Z) :=
  speaker ← item_subscript conv (py "speaker");
  if truthy speaker
  then
    text ← item_subscript conv (py "text");
    let word_count := Z.of_nat (length (split_ws text)) in
    match dict_get speaker_stats speaker with
    | Some n => Ok (dict_set speaker_stats speaker (n + word_count)%Z)
    | None => Ok (dict_set speaker_stats speaker word_count)
    end
  else Ok speaker_stats.

Definition get_meeting_stats (parsed_data : option pydict) : res pydict :=
  match parsed_data with
  | None => Ok []
  | Some d =>
      if bool_decide (d = []) then Ok []
      else
        let conversations :=
          default (FConvList []) (dict_get d (py "conversations")) in
        if negb (field_truthy conversations) then Ok []
        else
          first ← field_first conversations;
          start_time ← item_subscript first (py "start_time");
          final ← field_last conversations;
          end_time ← item_subscript final (py "end_time");
          items ← field_iter conversations;
          speaker_stats ← for_each count_body [] items;
          total_speakers ←
            field_len (default (FStrList []) (dict_get d (py "speakers")));
          total_entries ← field_len conversations;
          Ok [(py "duration", FStr (start_time ++ py " to " ++ end_time));
              (py "total_speakers", FInt total_speakers);
              (py "total_entries", FInt total_entries);
              (py "speaker_word_counts", FCounts speaker_stats)]
  end.

End VTT.
Export VTT.

(** ** Vocabulary of the specification *)

Module Spec.

(** An utterance of the data model. *)
Record utterance := Utterance {
  start_time : pystr;
  end_time : pystr;
  speaker : pystr;
  text : pystr
}.

(** The dictionary that represents an utterance, and its reading back. *)
Definition conv_of (u : utterance) : conv :=
  mk_conv (start_time u) (end_time u) (speaker u) (text u).

Definition utterance_of (c : conv) : option utterance :=
  s ← dict_get c (py "start_time");
  e ← dict_get c (py "end_time");
  sp ← dict_get c (py "speaker");
  tx ← dict_get c (py "text");
  Some (Utterance s e sp tx).

(** What one block adds to the result: the loop body run on empty
    accumulators. *)
Definition block_utterance (block : pystr) : option utterance :=
  match block_body ([], set_new) block with
  | Ok ([c], _) => utterance_of c
  | _ => None
  end.

(** The timestamp line of a block: [lines[1]]. *)
Definition timestamp_line (block : pystr) : option pystr :=
  str_split NL (strip block) !! 1.

(** The blocks of a document, and those that are not empty once
    trimmed. *)
Definition blocks (content : pystr) : list pystr :=
  str_split (NL ++ NL) content.

Definition nonempty_blocks (content : pystr) : list pystr :=
  filter (λ b, truthy (strip b) = true) (blocks content).

(** The ParsedTranscript of the data model as [parse_vtt_file] returns
    it: [us] are its utterances. *)
Definition parsed_transcript (d : pydict) (us : list utterance) : Prop :=
  ∃ sps path,
    d = [(py "conversations", FConvList (conv_of <$> us));
         (py "speakers", FStrList sps);
         (py "total_entries", FInt (Z.of_nat (length us)));
         (py "file_path", FStr path)]
    ∧ NoDup sps
    ∧ (∀ s, s ∈ sps ↔ s ∈ speaker <$> us)
    ∧ Forall (λ u, speaker u ≠ [] ∧ text u ≠ []) us.

(** A dictionary of the shape the downstream methods expect: a list of
    conversation dictionaries with the four keys under ['conversations']
    and a list of names under ['speakers']. *)
Definition has_keys (c : conv) : Prop :=
  is_Some (dict_get c (py "start_time"))
  ∧ is_Some (dict_get c (py "end_time"))
  ∧ is_Some (dict_get c (py "speaker"))
  ∧ is_Some (dict_get c (py "text")).

Definition well_formed (d : pydict) : Prop :=
  ∃ cs sps,
    dict_get d (py "conversations") = Some (FConvList cs)
    ∧ dict_get d (py "speakers") = Some (FStrList sps)
    ∧ Forall has_keys cs.

(** Turn merging as the specification words it: consecutive utterances of
    one speaker become one turn, their texts separated by single
    spaces. *)
Fixpoint merge_turns (us : list (pystr * pystr)) : list (pystr * pystr) :=
  match us with
  | [] => []
  | (s, t) :: rest =>
      match merge_turns rest with
      | (s', t') :: turns =>
          if bool_decide (s = s')
          then (s, t ++ py " " ++ t') :: turns
          else (s, t) :: (s', t') :: turns
      | [] => [(s, t)]
      end
  end.

(** No two neighbouring turns have the same speaker: the merged runs are
    maximal. *)
Fixpoint distinct_neighbours (l : list (pystr * pystr)) : Prop :=
  match l with
  | a :: l' =>
      match l' with
      | b :: _ => a.1 ≠ b.1
      | [] => True
      end ∧ distinct_neighbours l'
  | [] => True
  end.

Definition turn_line (turn : pystr * pystr) : pystr :=
  turn.1 ++ py ": " ++ turn.2.

(** The speaker and text of each utterance. *)
Definition pairs (us : list utterance) : list (pystr * pystr) :=
  (λ u, (speaker u, text u)) <$> us.

Definition narrative (us : list utterance) : pystr :=
  str_join (NL ++ NL) (turn_line <$> merge_turns (pairs us)).

(** The list stored under ['speakers'] and the dictionary stored under
    ['speaker_word_counts']; empty when the key is absent. *)
Definition speakers_of (d : pydict) : list pystr :=
  match dict_get d (py "speakers") with
  | Some (FStrList l) => l
  | _ => []
  end.

Definition speaker_word_counts (m : pydict) : dict Z :=
  match dict_get m (py "speaker_word_counts") with
  | Some (FCounts c) => c
  | _ => []
  end.

(** Number of whitespace-delimited tokens of a text. *)
Definition word_count (t : pystr) : Z := Z.of_nat (length (split_ws t)).

(** Total of the word counts of the utterances of speaker [s]. *)
Fixpoint words_of (s : pystr) (us : list utterance) : Z :=
  match us with
  | [] => 0
  | u :: us' =>
      ((if bool_decide (speaker u = s) then word_count (text u) else 0)
       + words_of s us')%Z
  end.

End Spec.
Export Spec.

(** ** Sample documents and transcripts *)

Module Samples.

(** The text made of the given lines. *)
Definition lines_text (l : list string) : pystr := str_join NL (py <$> l).

(** The header, then the block of the end-to-end scenario. *)
Definition scenario_doc : pystr :=
  lines_text ["WEBVTT"; "";
              "1"; "00:00:05.640 --> 00:00:17.960"; "adam: Hello there"]%string.

Definition scenario_utterance : utterance :=
  Utterance (py "00:00:05.640") (py "00:00:17.960") (py "adam")
    (py "Hello there").

(** A block whose marker is not surrounded by spaces. *)
Definition tight_marker_block : pystr :=
  lines_text ["2"; "00:00:18-->00:00:19"; "bob: hi"]%string.

(** A block whose timestamp line splits on the marker into three
    parts. *)
Definition three_part_block : pystr :=
  lines_text ["4"; "00:00:01 --> 00:00:02 --> 00:00:03"; "dan: well"]%string.

(** A block with nothing before the marker, between two other blocks. *)
Definition no_start_block : pystr :=
  lines_text ["5"; " --> 00:00:09"; "eve: ok"]%string.

(** A block whose second line has no marker. *)
Definition no_marker_block : pystr :=
  lines_text ["3"; "00:00:20 00:00:21"; "carol: hello"]%string.

(** Two orders in which a run may iterate over a set: each string where
    it was added last, and the reverse of that. *)
Definition added_order : set_order :=
  {| iter_order := remove_dups;
     iter_order_NoDup := NoDup_remove_dups;
     iter_order_elem := elem_of_remove_dups |}.

Definition reversed_order : set_order :=
  {| iter_order := λ s, reverse (remove_dups s);
     iter_order_NoDup := λ s,
       proj2 (NoDup_Permutation_proper _ _ (reverse_Permutation _))
         (NoDup_remove_dups s);
     iter_order_elem := λ s x,
       iff_trans (elem_of_reverse x (remove_dups s))
         (elem_of_remove_dups s x) |}.

(** A file system with one readable file. *)
Definition one_file_world : world :=
  {| read_file := λ path,
       if str_eqb path (py "meeting.vtt") then Ok scenario_doc
       else Raise (OSError (py "[Errno 2] No such file or directory"));
     hash_order := added_order;
     stdout := [] |}.

(** A document with two speakers, and two runs of the interpreter that
    read it: the file is the same, the order of sets is not. *)
Definition two_speakers_doc : pystr :=
  lines_text ["WEBVTT"; "";
              "1"; "00:00:05.640 --> 00:00:17.960"; "adam: Hello there"; "";
              "2"; "00:00:18.000 --> 00:00:20.500";
              "Misty Pearson: Hi adam"]%string.

Definition two_speakers_run (order : set_order) : world :=
  {| read_file := λ path,
       if str_eqb path (py "meeting.vtt") then Ok two_speakers_doc
       else Raise (OSError (py "[Errno 2] No such file or directory"));
     hash_order := order;
     stdout := [] |}.

(** The transcript of the turn-merging example. *)
Definition turns_utterances : list utterance :=
  [Utterance (py "00:00:01.000") (py "00:00:02.000") (py "A") (py "hi");
   Utterance (py "00:00:02.000") (py "00:00:03.000") (py "A") (py "there");
   Utterance (py "00:00:03.000") (py "00:00:04.000") (py "B") (py "yo")].

Definition turns_transcript : pydict :=
  [(py "conversations", FConvList (conv_of <$> turns_utterances));
   (py "speakers", FStrList [py "A"; py "B"]);
   (py "total_entries", FInt 3);
   (py "file_path", FStr (py "turns.vtt"))].

(** A transcript with one utterance of three words. *)
Definition three_words_utterances : list utterance :=
  [Utterance (py "00:00:01.000") (py "00:00:02.000") (py "A")
     (py "one two three")].

Definition three_words_transcript : pydict :=
  [(py "conversations", FConvList (conv_of <$> three_words_utterances));
   (py "speakers", FStrList [py "A"]);
   (py "total_entries", FInt 1);
   (py "file_path", FStr (py "words.vtt"))].

(** The transcript of a document without utterances. *)
Definition empty_transcript : pydict :=
  [(py "conversations", FConvList []);
   (py "speakers", FStrList []);
   (py "total_entries", FInt 0);
   (py "file_path", FStr (py "empty.vtt"))].

(** A mapping without the key ['conversations']. *)
Definition no_conversations : pydict :=
  [(py "speakers", FStrList [py "A"])].

End Samples.
Export Samples.

(** ** Well-formed cues and documents *)

Module Cues.

(** The loop that [Re.run] runs for a repetition, with the rest of the
    match as [k]. *)
Definition rep_loop (cl : Re.cclass) (min : nat)
    (k : pystr → nat → option Re.caps)
  : pystr → nat → nat → option Re.caps :=
  fix rep (s : pystr) (pos n : nat) {struct s} : option Re.caps :=
    match s with
    | a :: s' =>
        if Re.in_class cl a
        then match rep s' (S pos) (S n) with
             | Some r => Some r
             | None => if (min <=? n)%nat then k s pos else None
             end
        else if (min <=? n)%nat then k s pos else None
    | [] => if (min <=? n)%nat then k s pos else None
    end.

(** No occurrence of [sep] starts inside [a] when [a] is followed by
    [sep]. *)
Fixpoint clear_of (sep a : pystr) : bool :=
  match a with
  | [] => true
  | _ :: a' => negb (startswith sep (a ++ sep)) && clear_of sep a'
  end.

(** A string on one line, without blanks at its ends. *)
Definition plain (s : pystr) : bool :=
  bool_decide (10%N ∉ s) && bool_decide (strip s = s).

(** A cue as it is written in a document: an identifier, the two times
    and the speaker with the text. *)
Record cue := Cue {
  cue_id : pystr;
  cue_start : pystr;
  cue_end : pystr;
  cue_speaker : pystr;
  cue_text : pystr
}.

Definition format_cue (c : cue) : pystr :=
  cue_id c ++ NL ++ cue_start c ++ py " --> " ++ cue_end c ++ NL
  ++ cue_speaker c ++ py ": " ++ cue_text c.

(** The fields are one line each and trimmed; the times have no [>], the
    speaker has no colon; identifier, speaker and text are not empty. *)
Definition cue_ok (c : cue) : bool :=
  truthy (cue_id c) && plain (cue_id c)
  && plain (cue_start c) && bool_decide (62%N ∉ cue_start c)
  && plain (cue_end c) && bool_decide (62%N ∉ cue_end c)
  && truthy (cue_speaker c) && plain (cue_speaker c)
  && bool_decide (58%N ∉ cue_speaker c)
  && truthy (cue_text c) && plain (cue_text c).

Definition cue_utterance (c : cue) : utterance :=
  Utterance (cue_start c) (cue_end c) (cue_speaker c) (cue_text c).

(** A document: the cues separated by blank lines, after the header when
    there is one. *)
Definition format_document (header : bool) (cues : list cue) : pystr :=
  str_join (NL ++ NL)
    ((if header then [py "WEBVTT"] else []) ++ (format_cue <$> cues)).

(** The distinct elements of a list in the order of their first
    occurrence. *)
Fixpoint first_seen (seen l : list pystr) : list pystr :=
  match l with
  | [] => []
  | x :: l' =>
      if bool_decide (x ∈ seen) then first_seen seen l'
      else x :: first_seen (seen ++ [x]) l'
  end.

(** Sum of the values of a dictionary of counts, and the number of words
    of all utterances. *)
Definition sum_counts (d : dict Z) : Z := foldr (λ kv acc, kv.2 + acc)%Z 0%Z d.

Definition total_words (us : list utterance) : Z :=
  foldr (λ u acc, word_count (text u) + acc)%Z 0%Z us.

(** All four fields of an utterance are trimmed. *)
Definition trimmed_fields (u : utterance) : Prop :=
  strip (start_time u) = start_time u
  ∧ strip (end_time u) = end_time u
  ∧ strip (speaker u) = speaker u
  ∧ strip (text u) = text u.

(** Two cues of one speaker and one of another. *)
Definition sample_cues : list cue :=
  [Cue (py "1") (py "00:00:05.640") (py "00:00:17.960") (py "adam")
     (py "Hello there");
   Cue (py "2") (py "00:00:18.000") (py "00:00:19.500") (py "Misty Pearson")
     (py "Morning.");
   Cue (py "3") (py "00:00:20.000") (py "00:00:21.000") (py "adam")
     (py "Turn it up.")].

(** A run in which every path reads as the document of these cues. *)
Definition sample_cues_world : world :=
  {| read_file := λ _, Ok (format_document true sample_cues);
     hash_order := reversed_order;
     stdout := [] |}.

(** A block whose content has no speaker label. *)
Definition no_speaker_block : pystr :=
  lines_text ["6"; "00:00:22.000 --> 00:00:23.000";
              "and so on"; "until the end"]%string.

End Cues.
Export Cues.

(** ** The class [Config] of [gemini_summarizer.py] *)

Module Config.

(** The lines a text file yields when iterated over: each line with its
    line break, the last one without when the text does not end in
    one. *)
Fixpoint file_lines (s : pystr) : list pystr :=
  match s with
  | [] => []
  | c :: s' =>
      if (c =? 10)%N then [c] :: file_lines s'
      else match file_lines s' with
           | l :: ls => (c :: l) :: ls
           | [] => [[c]]
           end
  end.

(** [s.split(sep, 1)]: at most one split, at the first occurrence of a
    non-empty [sep]. *)
Fixpoint split_first (sep s : pystr) : option (pystr * pystr) :=
  if startswith sep s then Some ([], drop (length sep) s)
  else match s with
       | [] => None
       | c :: s' =>
           match split_first sep s' with
           | Some (a, b) => Some (c :: a, b)
           | None => None
           end
       end.

Definition split_once (sep s : pystr) : list pystr :=
  match split_first sep s with
  | Some (a, b) => [a; b]
  | None => [s]
  end.

(** What [Config] prints. *)
Inductive cfg_printed :=
| API_key_saved                    (* "API key saved to .env file" *)
| Could_not_save_API_key (e : exn). (* f"Could not save API key: {e}" *)

(** The file [.env] as the methods see it.  [env_file] is [None] when
    [os.path.exists('.env')] is false; otherwise it is the text whose
    lines reading yields, and the exception that opening or reading
    raises after them, if any.  [env_write text] is what opening the
    file for writing and writing [text] does: the exception raised, if
    any, and the file afterwards. *)
Record cfg_world := {
  env_file : option (pystr * option exn);
  env_write : pystr → option exn * option (pystr * option exn);
  cfg_stdout : list cfg_printed
}.

Definition ENV_KEY : pystr := py "GEMINI_API_KEY=".

(** [save_api_key_to_file] *)
Definition save_api_key_to_file (api_key : pystr) (w : cfg_world)
  : cfg_world :=
  let '(raised, file) := env_write w (ENV_KEY ++ api_key ++ NL) in
  {| env_file := file;
     env_write := env_write w;
     cfg_stdout :=
       cfg_stdout w ++ [match raised with
                        | None => API_key_saved
                        | Some e => Could_not_save_API_key e
                        end] |}.

(** The loop of [load_api_key_from_file] over the lines still to read:
    [Some key] when the loop returns a key, [None] when it ends. *)
Fixpoint find_key (lines : list pystr) : res (option pystr) :=
  match lines with
  | [] => Ok None
  | line :: lines' =>
      if startswith ENV_KEY line
      then value ← index (split_once (py "=") line) 1;
           Ok (Some (strip value))
      else find_key lines'
  end.

(** [load_api_key_from_file]: the bare [except] turns any exception into
    the final [return None]. *)
Definition load_api_key_from_file (w : cfg_world) : option pystr :=
  match env_file w with
  | None => None
  | Some (text, raised) =>
      match
        (found ← find_key (file_lines text);
         match found, raised with
         | Some key, _ => Ok (Some key)
         | None, Some e => Raise e
         | None, None => Ok None
         end)
      with
      | Ok r => r
      | Raise _ => None
      end
  end.

(** A world where [.env] does not exist yet and every write succeeds and
    reads back as written. *)
Definition fresh_world : cfg_world :=
  {| env_file := None;
     env_write := λ text, (None, Some (text, None));
     cfg_stdout := [] |}.

End Config.
Export Config.

(** ** Facts about the string operations *)

Section strings.

Lemma lstrip_clean s : starts_clean (lstrip s).
Proof.
  induction s as [|c s IH]; simpl; [done|].
  destruct (isspace c) eqn:E; [done|]. simpl. done.
Qed.

Lemma lstrip_fixed s : starts_clean s → lstrip s = s.
Proof. destruct s as [|c s]; simpl; [done|]. by intros ->. Qed.

Lemma lstrip_idem s : lstrip (lstrip s) = lstrip s.
Proof. apply lstrip_fixed, lstrip_clean. Qed.

Lemma lstrip_suffix s : ∃ ws, s = ws ++ lstrip s.
Proof.
  induction s as [|c s [ws IH]]; simpl; [by exists []|].
  destruct (isspace c).
  - exists (c :: ws). simpl. by rewrite <- IH.
  - by exists [].
Qed.

Lemma rstrip_prefix s : ∃ ws, s = rstrip s ++ ws.
Proof.
  unfold rstrip. destruct (lstrip_suffix (reverse s)) as [ws E].
  exists (reverse ws).
  rewrite <- reverse_app, <- E. by rewrite reverse_involutive.
Qed.

Lemma rstrip_clean s : starts_clean s → starts_clean (rstrip s).
Proof.
  intros H. destruct (rstrip_prefix s) as [ws E].
  destruct (rstrip s) as [|c r]; [done|].
  rewrite E in H. done.
Qed.

Lemma rstrip_idem s : rstrip (rstrip s) = rstrip s.
Proof.
  unfold rstrip. by rewrite reverse_involutive, lstrip_idem.
Qed.

Lemma strip_idem s : strip (strip s) = strip s.
Proof.
  unfold strip.
  rewrite (lstrip_fixed (rstrip (lstrip s))).
  - apply rstrip_idem.
  - apply rstrip_clean, lstrip_clean.
Qed.

Lemma truthy_nonempty s : truthy s = true ↔ s ≠ [].
Proof. destruct s; simpl; split; congruence. Qed.

Lemma str_eqb_eq a b : str_eqb a b = true ↔ a = b.
Proof. unfold str_eqb. apply bool_decide_eq_true. Qed.

Lemma str_eqb_refl a : str_eqb a a = true.
Proof. by apply str_eqb_eq. Qed.

Lemma str_eqb_neq a b : a ≠ b → str_eqb a b = false.
Proof. unfold str_eqb. apply bool_decide_eq_false. Qed.

End strings.

(** ** The loop of [parse_vtt_file], block by block *)

Section parse_loop.

Lemma bind_Ok {A B} (a : A) (f : A → res B) : (x ← Ok a; f x) = f a.
Proof. reflexivity. Qed.

Lemma for_each_cons {S A} (body : S → A → res S) st x l :
  for_each body st (x :: l) = st' ← body st x; for_each body st' l.
Proof. reflexivity. Qed.

Lemma utterance_of_mk_conv s e sp tx :
  utterance_of (mk_conv s e sp tx) = Some (Utterance s e sp tx).
Proof. reflexivity. Qed.

Lemma utterance_of_conv_of u : utterance_of (conv_of u) = Some u.
Proof. by destruct u. Qed.

Lemma index_lt {A} (l : list A) i : i < length l → ∃ x, index l i = Ok x ∧ l !! i = Some x.
Proof.
  intros H. destruct (lookup_lt_is_Some_2 l i H) as [x Hx].
  exists x. unfold index. by rewrite Hx.
Qed.

(** One pass of the loop body appends the utterance of the block, if
    any, and never raises. *)
Lemma block_body_spec cs sps b :
  block_body (cs, sps) b =
  Ok (match block_utterance b with
      | Some u => (cs ++ [conv_of u], set_add (speaker u) sps)
      | None => (cs, sps)
      end).
Proof.
  unfold block_utterance, block_body.
  destruct (negb (truthy (strip b)) || str_eqb (strip b) (py "WEBVTT"));
    [done|].
  destruct (length (str_split NL (strip b)) <? 3)%nat eqn:Hlen; [done|].
  apply Nat.ltb_ge in Hlen.
  destruct (index_lt (str_split NL (strip b)) 1) as (tl & -> & _); [lia|].
  simpl.
  destruct (negb (contains (py "-->") tl)); [done|].
  destruct (_parse_timestamp tl) as [s e].
  destruct (_extract_speaker_and_text _) as [spk tx].
  by destruct (truthy spk && truthy tx).
Qed.

(** What is known of a block that yields an utterance. *)
Lemma block_utterance_inv b u :
  block_utterance b = Some u →
  ∃ tl, timestamp_line b = Some tl
        ∧ truthy (strip b) = true
        ∧ 3 ≤ length (str_split NL (strip b))
        ∧ contains (py "-->") tl = true
        ∧ (start_time u, end_time u) = _parse_timestamp tl
        ∧ speaker u ≠ [] ∧ text u ≠ [].
Proof.
  unfold block_utterance, block_body, timestamp_line.
  destruct (truthy (strip b)) eqn:Hne; simpl; [|done].
  destruct (str_eqb (strip b) (py "WEBVTT")); [done|].
  destruct (length (str_split NL (strip b)) <? 3)%nat eqn:Hlen; [done|].
  apply Nat.ltb_ge in Hlen.
  destruct (index_lt (str_split NL (strip b)) 1) as (tl & -> & Htl); [lia|].
  simpl.
  destruct (contains (py "-->") tl) eqn:Hc; simpl; [|done].
  destruct (_parse_timestamp tl) as [s e] eqn:Hts.
  unfold _extract_speaker_and_text.
  destruct (Re.re_match _ _) as [m|]; simpl; [|done].
  destruct (truthy (strip (Re.group _ m 1))) eqn:Hs; simpl; [|done].
  destruct (truthy (strip (Re.group _ m 2))) eqn:Ht; simpl; [|done].
  intros [= <-]. simpl.
  exists tl. rewrite strip_idem, Hts.
  apply truthy_nonempty in Hs, Ht. done.
Qed.

Lemma for_each_block_body bs cs sps :
  for_each block_body (cs, sps) bs =
  Ok (cs ++ (conv_of <$> omap block_utterance bs),
      sps ++ (speaker <$> omap block_utterance bs)).
Proof.
  revert cs sps. induction bs as [|b bs IH]; intros cs sps.
  - simpl. by rewrite !app_nil_r.
  - rewrite for_each_cons, block_body_spec, bind_Ok. simpl omap.
    destruct (block_utterance b) as [u|]; rewrite IH; [|done].
    unfold set_add. by rewrite !fmap_cons, <- !app_assoc.
Qed.

(** The result of [parse_content], in closed form. *)
Lemma parse_content_spec order content path :
  let us := omap block_utterance (blocks content) in
  parse_content order content path =
  Ok [(py "conversations", FConvList (conv_of <$> us));
      (py "speakers", FStrList (iter_order order (speaker <$> us)));
      (py "total_entries", FInt (Z.of_nat (length us)));
      (py "file_path", FStr path)].
Proof.
  intros us. unfold parse_content. fold (blocks content).
  rewrite for_each_block_body. simpl. fold us.
  by rewrite length_fmap.
Qed.

(** A run lists the empty set as the empty list, and a set with one
    member as that member. *)
Lemma iter_order_nil order : iter_order order [] = [].
Proof.
  apply elem_of_nil_inv. intros x Hx.
  apply iter_order_elem in Hx. by apply elem_of_nil in Hx.
Qed.

Lemma iter_order_singleton order x : iter_order order [x] = [x].
Proof.
  pose proof (iter_order_NoDup order [x]) as Hnd.
  pose proof (iter_order_elem order [x]) as Hel.
  destruct (iter_order order [x]) as [|a [|b l]].
  - exfalso. apply (not_elem_of_nil x), Hel. by apply list_elem_of_singleton.
  - f_equal. apply list_elem_of_singleton, Hel. by left.
  - exfalso.
    assert (a = x) as -> by (apply list_elem_of_singleton, Hel; by left).
    assert (b = x) as ->
      by (apply list_elem_of_singleton, Hel; right; by left).
    apply NoDup_cons in Hnd as [Hnd _]. apply Hnd. by left.
Qed.

(** Two runs list one set in orders that are permutations of each
    other. *)
Lemma iter_order_Permutation order order' s :
  iter_order order s ≡ₚ iter_order order' s.
Proof.
  apply NoDup_Permutation; [apply iter_order_NoDup..|].
  intros x. by rewrite !iter_order_elem.
Qed.

Lemma parse_content_parsed order content path :
  ∃ d, parse_content order content path = Ok d
       ∧ parsed_transcript d (omap block_utterance (blocks content)).
Proof.
  eexists. split; [apply parse_content_spec|].
  eexists _, _. split; [done|]. split; [apply iter_order_NoDup|]. split.
  - apply iter_order_elem.
  - apply Forall_forall. intros u Hu.
    apply list_elem_of_omap in Hu as (b & _ & Hb).
    apply block_utterance_inv in Hb as (tl & _ & _ & _ & _ & _ & H).
    done.
Qed.

End parse_loop.

(** ** Dictionaries *)

Section dicts.
Context {V : Type}.
Implicit Types (d : dict V) (k : pystr) (v : V).

Lemma dict_get_set d k v k' :
  dict_get (dict_set d k v) k' =
  if decide (k = k') then Some v else dict_get d k'.
Proof.
  induction d as [|[k0 v0] d IH]; simpl.
  - destruct (decide (k = k')) as [->|Hne].
    + by rewrite str_eqb_refl.
    + by rewrite str_eqb_neq.
  - destruct (str_eqb k0 k) eqn:E0; simpl.
    + apply str_eqb_eq in E0 as ->.
      destruct (decide (k = k')) as [->|Hne].
      * by rewrite str_eqb_refl.
      * by rewrite str_eqb_neq.
    + destruct (str_eqb k0 k') eqn:E1; [|done].
      apply str_eqb_eq in E1 as ->.
      rewrite decide_False; [done|].
      intros ->. by rewrite str_eqb_refl in E0.
Qed.

Lemma dict_get_Some_key d k : is_Some (dict_get d k) ↔ k ∈ d.*1.
Proof.
  induction d as [|[k0 v0] d IH]; simpl.
  - split; [by intros [? ?]|]. by intros ?%elem_of_nil.
  - rewrite elem_of_cons. destruct (str_eqb k0 k) eqn:E.
    + apply str_eqb_eq in E as ->. split; [by left|by eexists].
    + rewrite IH. split; [by right|]. intros [->|H]; [|done].
      by rewrite str_eqb_refl in E.
Qed.

Lemma dict_set_keys_NoDup d k v : NoDup d.*1 → NoDup (dict_set d k v).*1.
Proof.
  induction d as [|[k0 v0] d IH]; simpl; intros Hd.
  - apply NoDup_singleton.
  - apply NoDup_cons in Hd as [Hk0 Hd].
    destruct (str_eqb k0 k) eqn:E; simpl.
    + by apply NoDup_cons.
    + apply NoDup_cons. split; [|by apply IH].
      rewrite <- dict_get_Some_key, dict_get_set.
      destruct (decide (k = k0)) as [->|Hne].
      * by rewrite str_eqb_refl in E.
      * by rewrite dict_get_Some_key.
Qed.

End dicts.

(** ** The loops of the downstream methods *)

Section downstream.

Lemma subscript_conv_of u :
  item_subscript (IConv (conv_of u)) (py "start_time") = Ok (start_time u)
  ∧ item_subscript (IConv (conv_of u)) (py "end_time") = Ok (end_time u)
  ∧ item_subscript (IConv (conv_of u)) (py "speaker") = Ok (speaker u)
  ∧ item_subscript (IConv (conv_of u)) (py "text") = Ok (text u).
Proof. by destruct u. Qed.

Lemma turn_body_conv tb cs ct u :
  turn_body (tb, cs, ct) (IConv (conv_of u)) =
  Ok (if str_eqb (speaker u) cs
      then (tb, cs, ct ++ py " " ++ text u)
      else (if truthy cs && truthy ct
            then tb ++ [turn_line (cs, ct)] else tb,
            speaker u, text u)).
Proof.
  unfold turn_body.
  destruct (subscript_conv_of u) as (_ & _ & -> & ->).
  rewrite !bind_Ok. by destruct (str_eqb (speaker u) cs).
Qed.

Lemma merge_turns_head s t rest :
  ∃ t' turns, merge_turns ((s, t) :: rest) = (s, t') :: turns.
Proof.
  simpl. destruct (merge_turns rest) as [|[s' t'] turns]; [by eauto|].
  destruct (bool_decide (s = s')); eauto.
Qed.

Lemma merge_turns_same s a b rest :
  merge_turns ((s, a) :: (s, b) :: rest) =
  merge_turns ((s, a ++ py " " ++ b) :: rest).
Proof.
  destruct (merge_turns_head s b rest) as (t' & turns & E).
  simpl in *. destruct (merge_turns rest) as [|[s' t''] turns'].
  - injection E as <- <-. by rewrite bool_decide_eq_true_2.
  - destruct (bool_decide (s = s')) eqn:Hs.
    + rewrite bool_decide_eq_true_2 by done.
      by rewrite <- !app_assoc.
    + by rewrite bool_decide_eq_true_2.
Qed.

Lemma merge_turns_diff s a s' b rest :
  s ≠ s' →
  merge_turns ((s, a) :: (s', b) :: rest) =
  (s, a) :: merge_turns ((s', b) :: rest).
Proof.
  intros Hne. destruct (merge_turns_head s' b rest) as (t' & turns & E).
  change (merge_turns ((s, a) :: (s', b) :: rest))
    with (match merge_turns ((s', b) :: rest) with
          | (s2, t2) :: turns =>
              if bool_decide (s = s2)
              then (s, a ++ py " " ++ t2) :: turns
              else (s, a) :: (s2, t2) :: turns
          | [] => [(s, a)]
          end).
  rewrite E. by rewrite bool_decide_eq_false_2.
Qed.

(** The loop of [get_conversation_text] from a state that holds a turn
    under construction. *)
Lemma for_each_turn_body us tb cs ct :
  cs ≠ [] → ct ≠ [] →
  Forall (λ u, speaker u ≠ [] ∧ text u ≠ []) us →
  ∃ tb' cs' ct',
    for_each turn_body (tb, cs, ct) (IConv <$> (conv_of <$> us))
    = Ok (tb', cs', ct')
    ∧ cs' ≠ [] ∧ ct' ≠ []
    ∧ tb' ++ [turn_line (cs', ct')]
      = tb ++ (turn_line <$> merge_turns ((cs, ct) :: pairs us)).
Proof.
  revert tb cs ct.
  induction us as [|u us IH]; intros tb cs ct Hcs Hct Hus.
  - by exists tb, cs, ct.
  - apply Forall_cons in Hus as [[Hs Ht] Hus].
    rewrite !fmap_cons, for_each_cons, turn_body_conv, bind_Ok.
    destruct (str_eqb (speaker u) cs) eqn:E.
    + apply str_eqb_eq in E.
      destruct (IH tb cs (ct ++ py " " ++ text u)) as (tb' & cs' & ct' & H);
        [done| by destruct ct |done|].
      exists tb', cs', ct'. destruct H as (-> & ? & ? & ->).
      repeat split; [done..|].
      unfold pairs. rewrite fmap_cons, E. by rewrite merge_turns_same.
    + assert (speaker u ≠ cs) as Hne.
      { intros Heq. by rewrite Heq, str_eqb_refl in E. }
      apply truthy_nonempty in Hcs as ->. apply truthy_nonempty in Hct as ->.
      simpl andb. cbv iota.
      destruct (IH (tb ++ [turn_line (cs, ct)]) (speaker u) (text u))
        as (tb' & cs' & ct' & H); [done..|].
      exists tb', cs', ct'. destruct H as (-> & ? & ? & ->).
      repeat split; [done..|].
      unfold pairs at 2. rewrite fmap_cons.
      rewrite (merge_turns_diff cs ct) by done.
      by rewrite fmap_cons, <- app_assoc.
Qed.

End downstream.

Section methods.

(** [get_conversation_text] on a parsed transcript is the narrative of
    its utterances. *)
Lemma get_conversation_text_parsed d us :
  parsed_transcript d us →
  get_conversation_text (Some d) = Ok (narrative us).
Proof.
  intros (sps & path & -> & _ & _ & Hus).
  unfold get_conversation_text, narrative.
  change (bool_decide _ || negb (dict_in _ _)) with false. cbv iota.
  change (subscript _ (py "conversations"))
    with (Ok (FConvList (conv_of <$> us))).
  rewrite bind_Ok. simpl field_iter. rewrite bind_Ok.
  destruct us as [|u us]; [done|].
  apply Forall_cons in Hus as [[Hs Ht] Hus].
  rewrite !fmap_cons, for_each_cons, turn_body_conv, bind_Ok.
  rewrite (str_eqb_neq (speaker u) []) by done.
  change (truthy [] && truthy []) with false. cbv iota.
  destruct (for_each_turn_body us [] (speaker u) (text u))
    as (tb' & cs' & ct' & -> & Hcs & Hct & E); [done..|].
  rewrite bind_Ok.
  apply truthy_nonempty in Hcs as ->. apply truthy_nonempty in Hct as ->.
  simpl andb. cbv iota.
  change (cs' ++ py ": " ++ ct') with (turn_line (cs', ct')).
  by rewrite E.
Qed.

(** The word-count loop: the totals it adds to the dictionary [acc]. *)
Lemma count_body_conv acc u :
  speaker u ≠ [] →
  count_body acc (IConv (conv_of u)) =
  Ok (dict_set acc (speaker u)
        (match dict_get acc (speaker u) with
         | Some n => n + word_count (text u)
         | None => word_count (text u)
         end)%Z).
Proof.
  intros Hs. unfold count_body.
  destruct (subscript_conv_of u) as (_ & _ & -> & ->).
  rewrite bind_Ok. apply truthy_nonempty in Hs as ->.
  rewrite bind_Ok. by destruct (dict_get acc (speaker u)).
Qed.

Lemma for_each_count_body us acc :
  Forall (λ u, speaker u ≠ [] ∧ text u ≠ []) us →
  ∃ r, for_each count_body acc (IConv <$> (conv_of <$> us)) = Ok r
       ∧ (∀ s, dict_get r s =
               match dict_get acc s with
               | Some n => Some (n + words_of s us)%Z
               | None => if decide (s ∈ speaker <$> us)
                         then Some (words_of s us) else None
               end)
       ∧ (NoDup acc.*1 → NoDup r.*1).
Proof.
  revert acc. induction us as [|u us IH]; intros acc Hus.
  - exists acc. split; [done|]. split; [|done].
    intros s. simpl. destruct (dict_get acc s); [|done].
    by rewrite Z.add_0_r.
  - apply Forall_cons in Hus as [[Hs _] Hus].
    rewrite !fmap_cons, for_each_cons, count_body_conv, bind_Ok by done.
    destruct (IH (dict_set acc (speaker u)
                    (match dict_get acc (speaker u) with
                     | Some n => n + word_count (text u)
                     | None => word_count (text u)
                     end)%Z) Hus) as (r & -> & Hr & Hnd).
    exists r. split; [done|]. split.
    + intros s. rewrite Hr, dict_get_set. simpl words_of.
      destruct (decide (speaker u = s)) as [->|Hne].
      * rewrite bool_decide_eq_true_2 by done.
        rewrite decide_True by apply list_elem_of_here.
        destruct (dict_get acc s); f_equal; lia.
      * rewrite bool_decide_eq_false_2 by done.
        destruct (dict_get acc s); [f_equal; lia|].
        destruct (decide (s ∈ speaker <$> us)) as [Hin|Hnin].
        -- rewrite decide_True by (by apply list_elem_of_further).
           f_equal; lia.
        -- rewrite decide_False; [done|].
           intros [?|?]%elem_of_cons; done.
    + intros Hacc. by apply Hnd, dict_set_keys_NoDup.
Qed.

(** Neither loop raises on dictionaries that have the four keys. *)
Lemma item_subscript_has_keys c :
  has_keys c →
  ∃ s e sp tx,
    item_subscript (IConv c) (py "start_time") = Ok s
    ∧ item_subscript (IConv c) (py "end_time") = Ok e
    ∧ item_subscript (IConv c) (py "speaker") = Ok sp
    ∧ item_subscript (IConv c) (py "text") = Ok tx.
Proof.
  intros ([s Hs] & [e He] & [sp Hsp] & [tx Htx]).
  exists s, e, sp, tx. unfold item_subscript, subscript.
  by rewrite Hs, He, Hsp, Htx.
Qed.

Lemma for_each_turn_body_total cs st :
  Forall has_keys cs → ∃ st', for_each turn_body st (IConv <$> cs) = Ok st'.
Proof.
  revert st. induction cs as [|c cs IH]; intros st Hcs; [by eexists|].
  apply Forall_cons in Hcs as [Hc Hcs].
  destruct (item_subscript_has_keys c Hc) as (s & e & sp & tx & _ & _ & Hsp & Htx).
  destruct st as [[tb cur_s] cur_t].
  rewrite fmap_cons, for_each_cons. unfold turn_body.
  rewrite Hsp, bind_Ok, Htx, bind_Ok.
  destruct (str_eqb sp cur_s); rewrite bind_Ok; by apply IH.
Qed.

Lemma for_each_count_body_total cs acc :
  Forall has_keys cs → ∃ r, for_each count_body acc (IConv <$> cs) = Ok r.
Proof.
  revert acc. induction cs as [|c cs IH]; intros acc Hcs; [by eexists|].
  apply Forall_cons in Hcs as [Hc Hcs].
  destruct (item_subscript_has_keys c Hc) as (s & e & sp & tx & _ & _ & Hsp & Htx).
  rewrite fmap_cons, for_each_cons. unfold count_body.
  rewrite Hsp, bind_Ok.
  destruct (truthy sp); [|rewrite bind_Ok; by apply IH].
  rewrite Htx, bind_Ok.
  destruct (dict_get acc sp); rewrite bind_Ok; by apply IH.
Qed.

End methods.

(** ** The method [parse_vtt_file] *)

Section parse_method.

Lemma parse_vtt_file_readable self path w content :
  read_file w path = Ok content →
  ∃ d, parse_vtt_file self path w = (Some d, self, w)
       ∧ parse_content (hash_order w) content path = Ok d
       ∧ parsed_transcript d (omap block_utterance (blocks content)).
Proof.
  intros Hr.
  destruct (parse_content_parsed (hash_order w) content path)
    as (d & Hd & Hp).
  exists d. unfold parse_vtt_file. by rewrite Hr, bind_Ok, Hd.
Qed.

Lemma parse_vtt_file_unreadable self path w e :
  read_file w path = Raise e →
  parse_vtt_file self path w
  = (None, self, print (Error_parsing_VTT_file e) w).
Proof. intros Hr. unfold parse_vtt_file. by rewrite Hr. Qed.

Lemma parse_timestamp_two_parts tl a b rest :
  str_split (py " --> ") tl = a :: b :: rest →
  _parse_timestamp tl = (strip a, strip b).
Proof. intros E. unfold _parse_timestamp. by rewrite E. Qed.

Lemma block_utterance_no_marker block tl :
  timestamp_line block = Some tl →
  contains (py "-->") tl = false →
  block_utterance block = None.
Proof.
  intros Htl Hc. destruct (block_utterance block) as [u|] eqn:E; [|done].
  apply block_utterance_inv in E as (tl' & Htl' & _ & _ & Hc' & _).
  congruence.
Qed.

Lemma omap_length_filter {A B} (f : A → option B) (P : A → Prop)
    `{∀ x, Decision (P x)} (l : list A) :
  (∀ x y, f x = Some y → P x) →
  length (omap f l) ≤ length (filter P l).
Proof.
  intros Hf. induction l as [|x l IH]; [done|].
  change (omap f (x :: l))
    with (match f x with Some y => y :: omap f l | None => omap f l end).
  destruct (f x) as [y|] eqn:E.
  - rewrite filter_cons_True by eauto. simpl length. lia.
  - destruct (decide (P x)).
    + rewrite filter_cons_True by done. simpl length. lia.
    + by rewrite filter_cons_False.
Qed.

Lemma distinct_length (l k : list pystr) :
  NoDup l → (∀ s, s ∈ l ↔ s ∈ k) →
  length l = length (remove_dups k).
Proof.
  intros Hl Hlk. apply Permutation_length, NoDup_Permutation.
  - done.
  - apply NoDup_remove_dups.
  - intros s. by rewrite elem_of_remove_dups.
Qed.

End parse_method.

(** ** Statistics and sample transcripts *)

Section stats.

Lemma merge_turns_distinct l : distinct_neighbours (merge_turns l).
Proof.
  induction l as [|[s t] rest IH]; [done|]. simpl.
  destruct (merge_turns rest) as [|[s' t'] turns]; [done|].
  destruct (bool_decide (s = s')) eqn:E.
  - destruct IH as [IH1 IH2]. split; [|done].
    apply bool_decide_eq_true in E as ->. done.
  - apply bool_decide_eq_false in E. done.
Qed.

Lemma last_cons_is_Some {A} (x : A) l : ∃ y, last (x :: l) = Some y ∧ y ∈ x :: l.
Proof.
  destruct (last (x :: l)) as [y|] eqn:E.
  - exists y. split; [done|]. by apply last_Some_elem_of.
  - by apply last_None in E.
Qed.

(** [get_meeting_stats] on a parsed transcript with at least one
    utterance, with the dictionary the word-count loop builds. *)
Lemma get_meeting_stats_loop d u us final r :
  parsed_transcript d (u :: us) →
  last (u :: us) = Some final →
  for_each count_body [] (IConv <$> (conv_of <$> u :: us)) = Ok r →
  get_meeting_stats (Some d)
  = Ok [(py "duration", FStr (start_time u ++ py " to " ++ end_time final));
        (py "total_speakers", FInt (Z.of_nat (length (speakers_of d))));
        (py "total_entries", FInt (Z.of_nat (length (u :: us))));
        (py "speaker_word_counts", FCounts r)].
Proof.
  intros (sps & path & -> & _ & _ & Hus) Hlast Hr.
  unfold get_meeting_stats.
  change (bool_decide _) with false. cbv iota.
  change (dict_get _ (py "conversations"))
    with (Some (FConvList (conv_of <$> u :: us))).
  change (dict_get _ (py "speakers")) with (Some (FStrList sps)).
  change (speakers_of _) with sps.
  simpl default.
  change (list_fmap utterance conv conv_of us) with (conv_of <$> us).
  change (negb (field_truthy _)) with false. cbv iota.
  change (field_first _) with (Ok (IConv (conv_of u))). rewrite bind_Ok.
  destruct (subscript_conv_of u) as (-> & _). rewrite bind_Ok.
  replace (field_last (FConvList (conv_of u :: (conv_of <$> us))))
    with (Ok (IConv (conv_of final))).
  2:{ unfold field_last. simpl field_iter. rewrite bind_Ok.
      rewrite <- !fmap_cons, !fmap_last, Hlast. done. }
  rewrite bind_Ok.
  destruct (subscript_conv_of final) as (_ & -> & _). rewrite bind_Ok.
  simpl field_iter. rewrite bind_Ok, <- !fmap_cons, Hr, bind_Ok.
  simpl field_len. rewrite !bind_Ok, length_fmap. done.
Qed.

(** The downstream methods see the list of speakers only through its
    length: two transcripts of the same utterances give the same
    statistics and the same narrative. *)
Lemma parsed_transcript_speakers d d' us :
  parsed_transcript d us → parsed_transcript d' us →
  speakers_of d ≡ₚ speakers_of d'.
Proof.
  intros (sps & path & -> & Hnd & Hel & _) (sps' & path' & -> & Hnd' & Hel' & _).
  change (sps ≡ₚ sps'). apply NoDup_Permutation; [done..|].
  intros x. by rewrite Hel, Hel'.
Qed.

Lemma get_meeting_stats_same_utterances d d' us :
  parsed_transcript d us → parsed_transcript d' us →
  get_meeting_stats (Some d') = get_meeting_stats (Some d).
Proof.
  intros Hd Hd'. destruct us as [|u us].
  - destruct Hd as (sps & path & -> & _), Hd' as (sps' & path' & -> & _).
    done.
  - destruct (last_cons_is_Some u us) as (final & Hlast & _).
    assert (Forall (λ u, speaker u ≠ [] ∧ text u ≠ []) (u :: us)) as Hus
      by (by destruct Hd as (sps & path & _ & _ & _ & Hus)).
    destruct (for_each_count_body (u :: us) [] Hus) as (r & Hr & _).
    rewrite (get_meeting_stats_loop d u us final r Hd Hlast Hr).
    rewrite (get_meeting_stats_loop d' u us final r Hd' Hlast Hr).
    by rewrite (parsed_transcript_speakers d d' (u :: us) Hd Hd').
Qed.

(** [get_meeting_stats] on a parsed transcript with a first and a last
    utterance. *)
Lemma get_meeting_stats_parsed d u us final :
  parsed_transcript d (u :: us) →
  last (u :: us) = Some final →
  ∃ counts,
    get_meeting_stats (Some d)
    = Ok [(py "duration",
           FStr (start_time u ++ py " to " ++ end_time final));
          (py "total_speakers", FInt (Z.of_nat (length (speakers_of d))));
          (py "total_entries", FInt (Z.of_nat (length (u :: us))));
          (py "speaker_word_counts", FCounts counts)]
    ∧ (∀ s, dict_get counts s =
            if decide (s ∈ speaker <$> u :: us)
            then Some (words_of s (u :: us)) else None)
    ∧ NoDup counts.*1.
Proof.
  intros (sps & path & -> & _ & _ & Hus) Hlast.
  destruct (for_each_count_body (u :: us) [] Hus) as (r & Hr & Hget & Hnd).
  exists r. split; [|split; [done|apply Hnd, NoDup_nil_2]].
  unfold get_meeting_stats.
  change (bool_decide _) with false. cbv iota.
  change (dict_get _ (py "conversations"))
    with (Some (FConvList (conv_of <$> u :: us))).
  change (dict_get _ (py "speakers")) with (Some (FStrList sps)).
  change (speakers_of _) with sps.
  simpl default.
  change (list_fmap utterance conv conv_of us) with (conv_of <$> us).
  change (negb (field_truthy _)) with false. cbv iota.
  change (field_first _) with (Ok (IConv (conv_of u))). rewrite bind_Ok.
  destruct (subscript_conv_of u) as (-> & _). rewrite bind_Ok.
  replace (field_last (FConvList (conv_of u :: (conv_of <$> us))))
    with (Ok (IConv (conv_of final))).
  2:{ unfold field_last. simpl field_iter. rewrite bind_Ok.
      rewrite <- !fmap_cons, !fmap_last, Hlast. done. }
  rewrite bind_Ok.
  destruct (subscript_conv_of final) as (_ & -> & _). rewrite bind_Ok.
  simpl field_iter. rewrite bind_Ok, <- !fmap_cons, Hr, bind_Ok.
  simpl field_len. rewrite !bind_Ok, length_fmap. done.
Qed.

End stats.

Section samples.

Lemma turns_transcript_parsed :
  parsed_transcript turns_transcript turns_utterances.
Proof.
  exists [py "A"; py "B"], (py "turns.vtt").
  split; [reflexivity|]. split; [|split].
  - apply (bool_decide_unpack _). by vm_compute.
  - intros s. vm_compute fmap.
    rewrite !elem_of_cons, !elem_of_nil. tauto.
  - repeat constructor; by vm_compute.
Qed.

Lemma three_words_transcript_parsed :
  parsed_transcript three_words_transcript three_words_utterances.
Proof.
  exists [py "A"], (py "words.vtt").
  split; [reflexivity|]. split; [|split].
  - apply (bool_decide_unpack _). by vm_compute.
  - intros s. vm_compute fmap.
    rewrite !elem_of_cons, !elem_of_nil. tauto.
  - repeat constructor; by vm_compute.
Qed.

Lemma empty_transcript_parsed : parsed_transcript empty_transcript [].
Proof.
  exists [], (py "empty.vtt").
  split; [reflexivity|]. split; [apply NoDup_nil_2|]. split; [done|].
  constructor.
Qed.

Lemma parsed_transcript_well_formed d us :
  parsed_transcript d us → well_formed d.
Proof.
  intros (sps & path & -> & _). exists (conv_of <$> us), sps.
  split; [reflexivity|]. split; [reflexivity|].
  apply Forall_fmap, Forall_forall. intros [s e sp tx] _.
  repeat split; by eexists.
Qed.

End samples.

(** ** The methods on the sample documents *)

Section examples.

(** The end-to-end scenario: one block after the header. *)
Example scenario_parse :
  parse_vtt_file __init__ (py "meeting.vtt") one_file_world
  = (Some [(py "conversations", FConvList [conv_of scenario_utterance]);
           (py "speakers", FStrList [py "adam"]);
           (py "total_entries", FInt 1);
           (py "file_path", FStr (py "meeting.vtt"))],
     __init__, one_file_world).
Proof. by vm_compute. Qed.

Example scenario_stats order :
  (d ← parse_content order scenario_doc (py "meeting.vtt");
   get_meeting_stats (Some d))
  = Ok [(py "duration", FStr (py "00:00:05.640 to 00:00:17.960"));
        (py "total_speakers", FInt 1);
        (py "total_entries", FInt 1);
        (py "speaker_word_counts", FCounts [(py "adam", 2%Z)])].
Proof.
  rewrite parse_content_spec.
  assert (omap block_utterance (blocks scenario_doc) = [scenario_utterance])
    as -> by (by vm_compute).
  change (speaker <$> [scenario_utterance]) with [py "adam"].
  rewrite iter_order_singleton. by vm_compute.
Qed.

(** The empty document: no utterance and no speaker, in every run. *)
Example empty_document_parse order path :
  parse_content order [] path
  = Ok [(py "conversations", FConvList []);
        (py "speakers", FStrList []);
        (py "total_entries", FInt 0);
        (py "file_path", FStr path)].
Proof.
  rewrite parse_content_spec.
  change (omap block_utterance (blocks [])) with (@nil utterance).
  change (speaker <$> []) with (@nil pystr).
  by rewrite iter_order_nil.
Qed.

(** A path that cannot be opened. *)
Example missing_file_parse :
  parse_vtt_file __init__ (py "missing.vtt") one_file_world
  = (None, __init__,
     {| read_file := read_file one_file_world;
        hash_order := hash_order one_file_world;
        stdout := [Error_parsing_VTT_file
                     (OSError (py "[Errno 2] No such file or directory"))] |}).
Proof. reflexivity. Qed.

(** The speaker pattern: the speaker ends at the first colon; without a
    colon, or with nothing before it, there is no speaker; a text of
    blanks only is empty once trimmed. *)
Example extract_examples :
  _extract_speaker_and_text (py "adam: Hello there")
  = (py "adam", py "Hello there")
  ∧ _extract_speaker_and_text (py "a: b: c") = (py "a", py "b: c")
  ∧ _extract_speaker_and_text (py "no colon here") = ([], py "no colon here")
  ∧ _extract_speaker_and_text (py ": text") = ([], py ": text")
  ∧ _extract_speaker_and_text (py "adam:   ") = (py "adam", []).
Proof. by vm_compute. Qed.

Example split_examples :
  str_split (NL ++ NL) [] = [[]]
  ∧ str_split (py "--") (py "a--b----c--") = [py "a"; py "b"; []; py "c"; []]
  ∧ split_ws (py "  one two   three ") = [py "one"; py "two"; py "three"]
  ∧ strip (py "  Hello there  ") = py "Hello there".
Proof. by vm_compute. Qed.

End examples.

(** ** Properties of [parse_vtt_file] *)

(** C1. A document that cannot be read or decoded makes [parse_vtt_file]
    report the failure to its caller: it prints the error and returns
    [None], and it returns [None] in no other case.  Every readable
    document, also one without any utterance, gives a dictionary, so the
    failure is distinct from the success with zero utterances. *)
Theorem C1_read_failure_is_reported self path w :
  match read_file w path with
  | Raise e =>
      parse_vtt_file self path w
      = (None, self, print (Error_parsing_VTT_file e) w)
  | Ok content =>
      ∃ d, parse_vtt_file self path w = (Some d, self, w)
           ∧ parsed_transcript d (omap block_utterance (blocks content))
  end
  ∧ ((parse_vtt_file self path w).1.1 = None
     ↔ ∃ e, read_file w path = Raise e)
  ∧ ∃ d0, parse_content (hash_order w) [] path = Ok d0
          ∧ parsed_transcript d0 [].
Proof.
  split; [|split].
  - destruct (read_file w path) as [content|e] eqn:Hr.
    + destruct (parse_vtt_file_readable self path w content Hr)
        as (d & Hd & _ & Hp). by exists d.
    + by apply parse_vtt_file_unreadable.
  - destruct (read_file w path) as [content|e] eqn:Hr.
    + destruct (parse_vtt_file_readable self path w content Hr)
        as (d & -> & _). simpl. split; [done|]. by intros [e [=]].
    + rewrite (parse_vtt_file_unreadable self path w e Hr). simpl.
      split; [|done]. by exists e.
  - apply (parse_content_parsed (hash_order w) [] path).
Qed.

(** C2, as the code has it.  A block whose timestamp line does not
    contain the marker [-->] is skipped.  Every block is either skipped
    or adds exactly one utterance; that utterance has a non-empty speaker
    and a non-empty text, and when its timestamp line splits on
    [" --> "] into at least two parts, its start and end times are the
    first two parts, trimmed.  The utterances of a document are those
    its blocks add in turn, so each has a non-empty speaker and a
    non-empty text. *)
Theorem C2_marker_gate_and_emitted_utterances
    (st : list conv * pyset) (block : pystr) :
  (∀ tl, timestamp_line block = Some tl →
         contains (py "-->") tl = false →
         block_body st block = Ok st)
  ∧ (block_body st block = Ok st
     ∨ ∃ u tl,
         block_body st block
         = Ok (st.1 ++ [conv_of u], set_add (speaker u) st.2)
         ∧ timestamp_line block = Some tl
         ∧ contains (py "-->") tl = true
         ∧ speaker u ≠ [] ∧ text u ≠ []
         ∧ ∀ a b rest,
             str_split (py " --> ") tl = a :: b :: rest →
             start_time u = strip a ∧ end_time u = strip b)
  ∧ (∀ order content path, ∃ cs,
       parse_content order content path
       = Ok [(py "conversations", FConvList cs);
             (py "speakers",
              FStrList (iter_order order
                          (speaker <$> omap block_utterance
                                         (blocks content))));
             (py "total_entries", FInt (Z.of_nat (length cs)));
             (py "file_path", FStr path)]
       ∧ for_each block_body ([], set_new) (blocks content)
         = Ok (cs, speaker <$> omap block_utterance (blocks content))
       ∧ Forall (λ c, ∃ u, c = conv_of u ∧ speaker u ≠ [] ∧ text u ≠ [])
           cs).
Proof.
  destruct st as [cs sps]. rewrite block_body_spec. split; [|split].
  - intros tl Htl Hc. by rewrite (block_utterance_no_marker block tl).
  - destruct (block_utterance block) as [u|] eqn:E; [right|by left].
    apply block_utterance_inv in E
      as (tl & Htl & _ & _ & Hc & Hts & Hs & Ht).
    exists u, tl. do 5 (split; [done|]).
    intros a b rest Hsplit.
    rewrite (parse_timestamp_two_parts tl a b rest Hsplit) in Hts.
    by injection Hts.
  - intros order content path.
    exists (conv_of <$> omap block_utterance (blocks content)).
    rewrite parse_content_spec, for_each_block_body, length_fmap.
    split; [done|]. split; [done|].
    apply Forall_fmap, Forall_forall. intros u Hu. exists u.
    apply list_elem_of_omap in Hu as (b & _ & Hb).
    by apply block_utterance_inv in Hb as (tl & _ & _ & _ & _ & _ & H).
Qed.

(** C2 as stated fails.  The timestamp line of the first block contains
    the marker without the spaces, so it does not split on [" --> "] into
    two parts, yet the block is not skipped, and its utterance has an
    empty start time and an empty end time.  The timestamp line of the
    second block splits into three parts, and the block is not skipped
    either.  The third block splits into exactly two parts and its
    utterance has an empty start time. *)
Lemma C2_tight_marker_is_emitted :
  (timestamp_line tight_marker_block = Some (py "00:00:18-->00:00:19")
   ∧ str_split (py " --> ") (py "00:00:18-->00:00:19")
     = [py "00:00:18-->00:00:19"]
   ∧ block_utterance tight_marker_block
     = Some (Utterance [] [] (py "bob") (py "hi"))
   ∧ parse_content added_order tight_marker_block (py "meeting.vtt")
     = Ok [(py "conversations",
            FConvList [mk_conv [] [] (py "bob") (py "hi")]);
           (py "speakers", FStrList [py "bob"]);
           (py "total_entries", FInt 1);
           (py "file_path", FStr (py "meeting.vtt"))])
  ∧ (timestamp_line three_part_block
     = Some (py "00:00:01 --> 00:00:02 --> 00:00:03")
     ∧ str_split (py " --> ") (py "00:00:01 --> 00:00:02 --> 00:00:03")
       = [py "00:00:01"; py "00:00:02"; py "00:00:03"]
     ∧ block_utterance three_part_block
       = Some (Utterance (py "00:00:01") (py "00:00:02") (py "dan")
                 (py "well")))
  ∧ (timestamp_line no_start_block = Some (py " --> 00:00:09")
     ∧ str_split (py " --> ") (py " --> 00:00:09") = [[]; py "00:00:09"]
     ∧ block_utterance no_start_block
       = Some (Utterance [] (py "00:00:09") (py "eve") (py "ok"))).
Proof. vm_compute. done. Qed.

Lemma C2_witness :
  timestamp_line no_marker_block = Some (py "00:00:20 00:00:21")
  ∧ contains (py "-->") (py "00:00:20 00:00:21") = false
  ∧ block_body ([], set_new) no_marker_block = Ok ([], set_new).
Proof.
  split; [reflexivity|]. split; [reflexivity|].
  apply (proj1 (C2_marker_gate_and_emitted_utterances ([], set_new)
                  no_marker_block) (py "00:00:20 00:00:21"));
    reflexivity.
Defined.

(** C3. The list under ['speakers'] of a parsed document holds exactly
    the distinct speakers of its utterances, each once, and the
    utterances are those of the blocks of the document, in the order of
    the blocks. *)
Theorem C3_speakers_and_document_order self path w content :
  read_file w path = Ok content →
  ∃ cs sps,
    parse_vtt_file self path w
    = (Some [(py "conversations", FConvList cs);
             (py "speakers", FStrList sps);
             (py "total_entries", FInt (Z.of_nat (length cs)));
             (py "file_path", FStr path)], self, w)
    ∧ NoDup sps
    ∧ (∀ s, s ∈ sps ↔ ∃ c, c ∈ cs ∧ dict_get c (py "speaker") = Some s)
    ∧ cs = conv_of <$> omap block_utterance (blocks content).
Proof.
  intros Hr. unfold parse_vtt_file.
  rewrite Hr, bind_Ok, parse_content_spec.
  exists (conv_of <$> omap block_utterance (blocks content)),
    (iter_order (hash_order w)
       (speaker <$> omap block_utterance (blocks content))).
  split; [by rewrite length_fmap|].
  split; [apply iter_order_NoDup|]. split; [|done].
  intros s. rewrite iter_order_elem, !list_elem_of_fmap.
  split.
  - intros (u & -> & Hu). exists (conv_of u). split.
    + apply list_elem_of_fmap. by exists u.
    + by destruct u.
  - intros (c & Hc & Hs). apply list_elem_of_fmap in Hc as (u & -> & Hu).
    exists u. split; [|done]. destruct u. simpl in *. congruence.
Qed.

Lemma C3_witness :
  read_file one_file_world (py "meeting.vtt") = Ok scenario_doc
  ∧ ∃ cs sps,
      parse_vtt_file __init__ (py "meeting.vtt") one_file_world
      = (Some [(py "conversations", FConvList cs);
               (py "speakers", FStrList sps);
               (py "total_entries", FInt (Z.of_nat (length cs)));
               (py "file_path", FStr (py "meeting.vtt"))],
         __init__, one_file_world)
      ∧ NoDup sps
      ∧ (∀ s, s ∈ sps ↔ ∃ c, c ∈ cs ∧ dict_get c (py "speaker") = Some s)
      ∧ cs = conv_of <$> omap block_utterance (blocks scenario_doc).
Proof.
  split; [reflexivity|].
  apply (C3_speakers_and_document_order __init__ (py "meeting.vtt")
           one_file_world scenario_doc).
  reflexivity.
Defined.

(** C7. A readable document yields at most as many utterances as it has
    blocks that are not empty once trimmed (and so at most as many as it
    has non-empty blocks): each block adds at most one utterance. *)
Theorem C7_utterances_bounded_by_blocks self path w content :
  read_file w path = Ok content →
  ∃ d cs,
    parse_vtt_file self path w = (Some d, self, w)
    ∧ dict_get d (py "conversations") = Some (FConvList cs)
    ∧ length cs ≤ length (nonempty_blocks content)
    ∧ length (nonempty_blocks content)
      ≤ length (filter (λ b, b ≠ []) (blocks content))
    ∧ ∀ st b, ∃ new,
        block_body st b = Ok (st.1 ++ new.1, new.2) ∧ length new.1 ≤ 1.
Proof.
  intros Hr. unfold parse_vtt_file.
  rewrite Hr, bind_Ok, parse_content_spec.
  eexists _, _. split; [done|]. split; [done|]. split; [|split].
  - rewrite length_fmap. apply omap_length_filter.
    intros b u Hb.
    by apply block_utterance_inv in Hb as (tl & _ & Hne & _).
  - unfold nonempty_blocks.
    induction (blocks content) as [|b bs IH]; [done|].
    destruct (truthy (strip b)) eqn:E.
    + rewrite filter_cons_True by done.
      assert (b ≠ []) by (intros ->; by vm_compute in E).
      rewrite filter_cons_True by done. simpl length. lia.
    + rewrite filter_cons_False by (by rewrite E).
      destruct (decide (b ≠ [])).
      * rewrite filter_cons_True by done. simpl length. lia.
      * by rewrite filter_cons_False.
  - intros [cs0 sps0] b. rewrite block_body_spec.
    destruct (block_utterance b) as [u|].
    + by exists ([conv_of u], set_add (speaker u) sps0).
    + exists ([], sps0). simpl. rewrite app_nil_r. split; [done|lia].
Qed.

Lemma C7_witness :
  read_file one_file_world (py "meeting.vtt") = Ok scenario_doc
  ∧ ∃ d cs,
      parse_vtt_file __init__ (py "meeting.vtt") one_file_world
      = (Some d, __init__, one_file_world)
      ∧ dict_get d (py "conversations") = Some (FConvList cs)
      ∧ length cs ≤ length (nonempty_blocks scenario_doc)
      ∧ length (nonempty_blocks scenario_doc)
        ≤ length (filter (λ b, b ≠ []) (blocks scenario_doc))
      ∧ ∀ st b, ∃ new,
          block_body st b = Ok (st.1 ++ new.1, new.2) ∧ length new.1 ≤ 1.
Proof.
  split; [reflexivity|].
  apply (C7_utterances_bounded_by_blocks __init__ (py "meeting.vtt")
           one_file_world scenario_doc).
  reflexivity.
Defined.

(** C9, as the code has it.  [parse_vtt_file] neither reads nor changes
    the fields of the parser object, and a call leaves what a file reads
    as, and the order of sets, unchanged: within one run of the
    interpreter a second call on the same path returns the same result,
    whatever the state of the parser and whichever document was parsed in
    between, and so does [get_meeting_stats] on the results.  In another
    run that reads the same text the call fails or succeeds alike, and
    the two results have the same utterances, the same count and the same
    path; their lists of speakers hold the same names, in an order that
    may differ.  [get_meeting_stats] and [get_conversation_text] give the
    same on both results. *)
Theorem C9_parse_is_deterministic_up_to_speakers_order
    self self' path path' w :
  (let '(r, s1, w1) := parse_vtt_file self path w in
   s1 = self
   ∧ read_file w1 = read_file w
   ∧ hash_order w1 = hash_order w
   ∧ (parse_vtt_file s1 path w1).1.1 = r
   ∧ (parse_vtt_file self' path w).1.1 = r
   ∧ (let '(_, s2, w2) := parse_vtt_file self path' w in
      s2 = self ∧ (parse_vtt_file s2 path w2).1.1 = r)
   ∧ get_meeting_stats (parse_vtt_file s1 path w1).1.1 = get_meeting_stats r)
  ∧ ∀ w', read_file w' path = read_file w path →
      match (parse_vtt_file self path w).1.1,
            (parse_vtt_file self' path w').1.1 with
      | Some d, Some d' =>
          ∃ cs sps sps',
            d = [(py "conversations", FConvList cs);
                 (py "speakers", FStrList sps);
                 (py "total_entries", FInt (Z.of_nat (length cs)));
                 (py "file_path", FStr path)]
            ∧ d' = [(py "conversations", FConvList cs);
                    (py "speakers", FStrList sps');
                    (py "total_entries", FInt (Z.of_nat (length cs)));
                    (py "file_path", FStr path)]
            ∧ sps ≡ₚ sps'
      | None, None => True
      | _, _ => False
      end
      ∧ get_meeting_stats (parse_vtt_file self' path w').1.1
        = get_meeting_stats (parse_vtt_file self path w).1.1
      ∧ get_conversation_text (parse_vtt_file self' path w').1.1
        = get_conversation_text (parse_vtt_file self path w).1.1.
Proof.
  split.
  - assert (∀ s p, (parse_vtt_file s p w).1.2 = s
                   ∧ read_file (parse_vtt_file s p w).2 = read_file w
                   ∧ hash_order (parse_vtt_file s p w).2 = hash_order w)
      as Hsame.
    { intros s p. unfold parse_vtt_file.
      by destruct (_ ← read_file w p; parse_content _ _ p). }
    assert (∀ s s' w', read_file w' = read_file w →
                       hash_order w' = hash_order w →
                       (parse_vtt_file s' path w').1.1
                       = (parse_vtt_file s path w).1.1) as Hres.
    { intros s s' w' Hw Ho. unfold parse_vtt_file. rewrite Hw, Ho.
      by destruct (_ ← read_file w path; parse_content _ _ path). }
    destruct (parse_vtt_file self path w) as [[r s1] w1] eqn:E.
    pose proof (Hsame self path) as (Hs & Hw & Ho). rewrite E in Hs, Hw, Ho.
    simpl in Hs, Hw, Ho. subst s1.
    pose proof (Hres self self w1 Hw Ho) as H1.
    pose proof (Hres self self' w eq_refl eq_refl) as H2.
    rewrite E in H1, H2. simpl in H1, H2.
    do 5 (split; [done|]).
    split; [|by rewrite H1].
    destruct (parse_vtt_file self path' w) as [[r' s2] w2] eqn:E'.
    pose proof (Hsame self path') as (Hs' & Hw' & Ho').
    rewrite E' in Hs', Hw', Ho'.
    simpl in Hs', Hw', Ho'. subst s2. split; [done|].
    pose proof (Hres self self w2 Hw' Ho') as H3. by rewrite E in H3.
  - intros w' Hr'. destruct (read_file w path) as [content|e] eqn:Hr.
    + destruct (parse_vtt_file_readable self path w content Hr)
        as (d & -> & Hc & Hp).
      destruct (parse_vtt_file_readable self' path w' content Hr')
        as (d' & -> & Hc' & Hp').
      cbn [fst]. split; [|split].
      * rewrite parse_content_spec in Hc, Hc'.
        injection Hc as <-. injection Hc' as <-.
        exists (conv_of <$> omap block_utterance (blocks content)),
          (iter_order (hash_order w)
             (speaker <$> omap block_utterance (blocks content))),
          (iter_order (hash_order w')
             (speaker <$> omap block_utterance (blocks content))).
        rewrite length_fmap.
        split; [done|]. split; [done|]. apply iter_order_Permutation.
      * by apply (get_meeting_stats_same_utterances d d'
                    (omap block_utterance (blocks content))).
      * by rewrite (get_conversation_text_parsed d _ Hp),
             (get_conversation_text_parsed d' _ Hp').
    + rewrite (parse_vtt_file_unreadable self path w e Hr).
      by rewrite (parse_vtt_file_unreadable self' path w' e Hr').
Qed.

(** C9 as stated fails.  Two runs of the interpreter read the same text
    under the same path; in one, [list(speakers)] is
    [['adam', 'Misty Pearson']], in the other
    [['Misty Pearson', 'adam']], so the two parse results are not
    identical. *)
Lemma C9_speakers_order_differs_between_runs :
  read_file (two_speakers_run reversed_order) (py "meeting.vtt")
  = read_file (two_speakers_run added_order) (py "meeting.vtt")
  ∧ (parse_vtt_file __init__ (py "meeting.vtt")
       (two_speakers_run added_order)).1.1
    = Some [(py "conversations",
             FConvList
               [mk_conv (py "00:00:05.640") (py "00:00:17.960")
                  (py "adam") (py "Hello there");
                mk_conv (py "00:00:18.000") (py "00:00:20.500")
                  (py "Misty Pearson") (py "Hi adam")]);
            (py "speakers", FStrList [py "adam"; py "Misty Pearson"]);
            (py "total_entries", FInt 2);
            (py "file_path", FStr (py "meeting.vtt"))]
  ∧ (parse_vtt_file __init__ (py "meeting.vtt")
       (two_speakers_run reversed_order)).1.1
    = Some [(py "conversations",
             FConvList
               [mk_conv (py "00:00:05.640") (py "00:00:17.960")
                  (py "adam") (py "Hello there");
                mk_conv (py "00:00:18.000") (py "00:00:20.500")
                  (py "Misty Pearson") (py "Hi adam")]);
            (py "speakers", FStrList [py "Misty Pearson"; py "adam"]);
            (py "total_entries", FInt 2);
            (py "file_path", FStr (py "meeting.vtt"))].
Proof. split; [reflexivity|]. split; by vm_compute. Qed.

Lemma C9_witness :
  read_file (two_speakers_run reversed_order) (py "meeting.vtt")
  = read_file (two_speakers_run added_order) (py "meeting.vtt")
  ∧ match (parse_vtt_file __init__ (py "meeting.vtt")
             (two_speakers_run added_order)).1.1,
          (parse_vtt_file __init__ (py "meeting.vtt")
             (two_speakers_run reversed_order)).1.1 with
    | Some d, Some d' =>
        ∃ cs sps sps',
          d = [(py "conversations", FConvList cs);
               (py "speakers", FStrList sps);
               (py "total_entries", FInt (Z.of_nat (length cs)));
               (py "file_path", FStr (py "meeting.vtt"))]
          ∧ d' = [(py "conversations", FConvList cs);
                  (py "speakers", FStrList sps');
                  (py "total_entries", FInt (Z.of_nat (length cs)));
                  (py "file_path", FStr (py "meeting.vtt"))]
          ∧ sps ≡ₚ sps'
    | None, None => True
    | _, _ => False
    end
    ∧ get_meeting_stats
        (parse_vtt_file __init__ (py "meeting.vtt")
           (two_speakers_run reversed_order)).1.1
      = get_meeting_stats
          (parse_vtt_file __init__ (py "meeting.vtt")
             (two_speakers_run added_order)).1.1
    ∧ get_conversation_text
        (parse_vtt_file __init__ (py "meeting.vtt")
           (two_speakers_run reversed_order)).1.1
      = get_conversation_text
          (parse_vtt_file __init__ (py "meeting.vtt")
             (two_speakers_run added_order)).1.1.
Proof.
  split; [reflexivity|].
  apply (proj2 (C9_parse_is_deterministic_up_to_speakers_order
                  __init__ __init__ (py "meeting.vtt") (py "meeting.vtt")
                  (two_speakers_run added_order))
           (two_speakers_run reversed_order)).
  reflexivity.
Defined.

(** ** Properties of [get_conversation_text] and [get_meeting_stats] *)

(** C10. Given [None], or a mapping without the key ['conversations'],
    [get_conversation_text] returns the empty string and
    [get_meeting_stats] returns the empty mapping; neither raises. *)
Theorem C10_sentinel_is_tolerated d :
  dict_in (py "conversations") d = false →
  get_conversation_text None = Ok []
  ∧ get_meeting_stats None = Ok []
  ∧ get_conversation_text (Some d) = Ok []
  ∧ get_meeting_stats (Some d) = Ok [].
Proof.
  intros Hd. split; [done|]. split; [done|]. split.
  - unfold get_conversation_text. rewrite Hd.
    by rewrite orb_true_r.
  - unfold get_meeting_stats, dict_in in *.
    destruct (bool_decide _); [done|].
    by destruct (dict_get d (py "conversations")).
Qed.

Lemma C10_witness :
  dict_in (py "conversations") no_conversations = false
  ∧ get_conversation_text None = Ok []
  ∧ get_meeting_stats None = Ok []
  ∧ get_conversation_text (Some no_conversations) = Ok []
  ∧ get_meeting_stats (Some no_conversations) = Ok [].
Proof.
  split; [reflexivity|].
  apply (C10_sentinel_is_tolerated no_conversations). reflexivity.
Defined.

(** C4. On a parsed transcript [get_conversation_text] returns the lines
    ["speaker: text"] of the merged turns, joined by a blank line: each
    maximal run of consecutive utterances of one speaker is one turn
    whose text is the texts of the run separated by single spaces, so no
    two neighbouring turns have the same speaker.  Without utterances the
    result is the empty string, and the utterances (A, hi), (A, there),
    (B, yo) give "A: hi there", a blank line, "B: yo". *)
Theorem C4_narrative_merges_turns d us :
  parsed_transcript d us →
  get_conversation_text (Some d) = Ok (narrative us)
  ∧ distinct_neighbours (merge_turns (pairs us))
  ∧ narrative [] = []
  ∧ get_conversation_text (Some turns_transcript)
    = Ok (py "A: hi there" ++ NL ++ NL ++ py "B: yo").
Proof.
  intros Hd. split; [by apply get_conversation_text_parsed|].
  split; [apply merge_turns_distinct|]. split; [done|].
  by vm_compute.
Qed.

Lemma C4_witness :
  parsed_transcript turns_transcript turns_utterances
  ∧ get_conversation_text (Some turns_transcript)
    = Ok (narrative turns_utterances)
  ∧ narrative turns_utterances = py "A: hi there" ++ NL ++ NL ++ py "B: yo".
Proof.
  split; [apply turns_transcript_parsed|].
  split; [|reflexivity].
  apply (C4_narrative_merges_turns turns_transcript turns_utterances).
  apply turns_transcript_parsed.
Defined.

(** C5. On a parsed transcript with at least one utterance
    [get_meeting_stats] returns the mapping with the keys [duration],
    [total_speakers], [total_entries] and [speaker_word_counts], where
    the duration is the start time of the first utterance, " to ", and
    the end time of the last one, [total_entries] is the number of
    utterances and [total_speakers] the number of distinct speakers.
    Without utterances it returns the empty mapping. *)
Theorem C5_stats_of_transcript d us :
  parsed_transcript d us →
  match head us, last us with
  | Some first, Some final =>
      ∃ counts,
        get_meeting_stats (Some d)
        = Ok [(py "duration",
               FStr (start_time first ++ py " to " ++ end_time final));
              (py "total_speakers",
               FInt (Z.of_nat (length (remove_dups (speaker <$> us)))));
              (py "total_entries", FInt (Z.of_nat (length us)));
              (py "speaker_word_counts", FCounts counts)]
  | _, _ => get_meeting_stats (Some d) = Ok []
  end.
Proof.
  intros Hd. destruct us as [|u us].
  - by destruct Hd as (sps & path & -> & _).
  - destruct (last_cons_is_Some u us) as (final & Hl & _).
    rewrite Hl. simpl head.
    destruct (get_meeting_stats_parsed d u us final Hd Hl)
      as (counts & -> & _).
    exists counts. destruct Hd as (sps & path & -> & Hnd & Hin & _).
    change (speakers_of _) with sps.
    by rewrite (distinct_length sps (speaker <$> u :: us)).
Qed.

Lemma C5_witness :
  parsed_transcript turns_transcript turns_utterances
  ∧ ∃ counts,
      get_meeting_stats (Some turns_transcript)
      = Ok [(py "duration", FStr (py "00:00:01.000 to 00:00:04.000"));
            (py "total_speakers", FInt 2);
            (py "total_entries", FInt 3);
            (py "speaker_word_counts", FCounts counts)].
Proof.
  split; [apply turns_transcript_parsed|].
  apply (C5_stats_of_transcript turns_transcript turns_utterances).
  apply turns_transcript_parsed.
Defined.

(** C6. On a parsed transcript the mapping under [speaker_word_counts]
    gives each speaker the sum, over the utterances of that speaker, of
    the number of whitespace-delimited tokens of the text, and its keys
    are the speakers of the transcript, each once.  The text
    "one two three" counts 3.  (Without utterances there are no speakers
    and [get_meeting_stats] returns the empty mapping.) *)
Theorem C6_word_counts_per_speaker d us :
  parsed_transcript d us →
  ∃ m, get_meeting_stats (Some d) = Ok m
    ∧ (us ≠ [] →
       dict_get m (py "speaker_word_counts")
       = Some (FCounts (speaker_word_counts m)))
    ∧ (∀ s, s ∈ speakers_of d →
            dict_get (speaker_word_counts m) s = Some (words_of s us))
    ∧ (∀ s, s ∈ (speaker_word_counts m).*1 ↔ s ∈ speakers_of d)
    ∧ NoDup (speaker_word_counts m).*1
    ∧ word_count (py "one two three") = 3%Z
    ∧ get_meeting_stats (Some three_words_transcript)
      = Ok [(py "duration", FStr (py "00:00:01.000 to 00:00:02.000"));
            (py "total_speakers", FInt 1);
            (py "total_entries", FInt 1);
            (py "speaker_word_counts", FCounts [(py "A", 3%Z)])].
Proof.
  intros Hd. destruct us as [|u us].
  - destruct Hd as (sps & path & -> & _ & Hin & _).
    exists []. split; [done|]. split; [done|].
    change (speakers_of _) with sps.
    change (speaker_word_counts []) with (@nil (pystr * Z)).
    assert (∀ s, s ∉ sps) as Hno.
    { intros s Hs. by apply Hin, elem_of_nil in Hs. }
    split; [intros s Hs; by apply Hno in Hs|].
    split; [|split; [apply NoDup_nil_2|by vm_compute]].
    intros s. split; [by intros ?%elem_of_nil|]. intros Hs. by apply Hno in Hs.
  - destruct (last_cons_is_Some u us) as (final & Hl & _).
    destruct (get_meeting_stats_parsed d u us final Hd Hl)
      as (counts & -> & Hget & Hnd).
    destruct Hd as (sps & path & -> & _ & Hin & _).
    eexists. split; [done|].
    change (speaker_word_counts _) with counts.
    change (speakers_of _) with sps.
    split; [done|]. split; [|split; [|split; [done|by vm_compute]]].
    + intros s Hs. rewrite Hget. apply Hin in Hs. by rewrite decide_True.
    + intros s. rewrite <- dict_get_Some_key, Hget, Hin.
      destruct (decide (s ∈ speaker <$> u :: us)) as [Hs|Hs].
      * split; [done|]. by eexists.
      * split; [by intros [? ?]|done].
Qed.

Lemma C6_witness :
  parsed_transcript turns_transcript turns_utterances
  ∧ ∃ m, get_meeting_stats (Some turns_transcript) = Ok m
      ∧ (turns_utterances ≠ [] →
         dict_get m (py "speaker_word_counts")
         = Some (FCounts (speaker_word_counts m)))
      ∧ (∀ s, s ∈ speakers_of turns_transcript →
              dict_get (speaker_word_counts m) s
              = Some (words_of s turns_utterances))
      ∧ (∀ s, s ∈ (speaker_word_counts m).*1
              ↔ s ∈ speakers_of turns_transcript)
      ∧ NoDup (speaker_word_counts m).*1
      ∧ word_count (py "one two three") = 3%Z
      ∧ get_meeting_stats (Some three_words_transcript)
        = Ok [(py "duration", FStr (py "00:00:01.000 to 00:00:02.000"));
              (py "total_speakers", FInt 1);
              (py "total_entries", FInt 1);
              (py "speaker_word_counts", FCounts [(py "A", 3%Z)])].
Proof.
  split; [apply turns_transcript_parsed|].
  apply (C6_word_counts_per_speaker turns_transcript turns_utterances).
  apply turns_transcript_parsed.
Defined.

(** C8. On a well-formed transcript, also the one without utterances,
    [get_conversation_text] and [get_meeting_stats] both return a value:
    neither raises. *)
Theorem C8_downstream_methods_never_raise d :
  well_formed d →
  (∃ s, get_conversation_text (Some d) = Ok s)
  ∧ (∃ m, get_meeting_stats (Some d) = Ok m).
Proof.
  intros (cs & sps & Hc & Hs & Hk).
  destruct d as [|kv d']; [done|]. split.
  - unfold get_conversation_text, dict_in, subscript. rewrite Hc.
    change (bool_decide _ || negb true) with false. cbv iota.
    rewrite bind_Ok. simpl field_iter. rewrite bind_Ok.
    destruct (for_each_turn_body_total cs ([], [], []) Hk)
      as ([[tb cur_s] cur_t] & ->).
    rewrite bind_Ok. by eexists.
  - unfold get_meeting_stats. rewrite Hc, Hs.
    change (bool_decide _) with false. cbv iota. simpl default.
    destruct cs as [|c cs]; [by eexists|].
    change (negb (field_truthy _)) with false. cbv iota.
    change (field_first _) with (Ok (IConv c)). rewrite bind_Ok.
    pose proof Hk as Hk'. apply Forall_cons in Hk' as [Hkc _].
    destruct (item_subscript_has_keys c Hkc) as (s & _ & _ & _ & -> & _).
    rewrite bind_Ok.
    destruct (last_cons_is_Some c cs) as (c' & Hl & Hin).
    change (field_last (FConvList (c :: cs)))
      with (match last (IConv <$> c :: cs) with
            | Some x => Ok x
            | None => Raise IndexError
            end).
    rewrite fmap_last, Hl. simpl fmap. cbv iota. rewrite bind_Ok.
    assert (has_keys c') as Hkc'.
    { rewrite Forall_forall in Hk. by apply Hk. }
    destruct (item_subscript_has_keys c' Hkc') as (_ & e & _ & _ & _ & -> & _).
    rewrite bind_Ok.
    change (field_iter (FConvList (c :: cs))) with (Ok (IConv <$> c :: cs)).
    rewrite bind_Ok.
    destruct (for_each_count_body_total (c :: cs) [] Hk) as (r & ->).
    rewrite bind_Ok. simpl field_len. rewrite !bind_Ok. by eexists.
Qed.

Lemma C8_witness :
  (well_formed empty_transcript
   ∧ (∃ s, get_conversation_text (Some empty_transcript) = Ok s)
   ∧ (∃ m, get_meeting_stats (Some empty_transcript) = Ok m))
  ∧ (well_formed turns_transcript
     ∧ (∃ s, get_conversation_text (Some turns_transcript) = Ok s)
     ∧ (∃ m, get_meeting_stats (Some turns_transcript) = Ok m)).
Proof.
  split.
  - split; [exact (parsed_transcript_well_formed _ _ empty_transcript_parsed)|].
    apply (C8_downstream_methods_never_raise empty_transcript).
    exact (parsed_transcript_well_formed _ _ empty_transcript_parsed).
  - split; [exact (parsed_transcript_well_formed _ _ turns_transcript_parsed)|].
    apply (C8_downstream_methods_never_raise turns_transcript).
    exact (parsed_transcript_well_formed _ _ turns_transcript_parsed).
Defined.

(** ** Splitting and joining *)

Section split_join.

Lemma startswith_app sep x b :
  length sep ≤ length x → startswith sep (x ++ b) = startswith sep x.
Proof.
  revert x. induction sep as [|a sep IH]; intros x Hlen; [by destruct x|].
  destruct x as [|c x]; simpl in *; [lia|].
  rewrite IH by lia. done.
Qed.

Lemma startswith_self sep b : startswith sep (sep ++ b) = true.
Proof.
  induction sep as [|a sep IH]; simpl; [done|].
  by rewrite N.eqb_refl, IH.
Qed.

Lemma startswith_longer sep x :
  length x < length sep → startswith sep x = false.
Proof.
  revert x. induction sep as [|a sep IH]; intros x Hlen; simpl in *; [lia|].
  destruct x as [|c x]; [done|]. simpl in Hlen.
  rewrite IH by lia. by rewrite andb_false_r.
Qed.

Lemma split_from_skip sep x b :
  split_from sep (x ++ b) (length x) = split_from sep b 0.
Proof. induction x as [|c x IH]; simpl; [done|]. apply IH. Qed.

Lemma str_split_cons sep c s :
  startswith sep (c :: s) = false →
  str_split sep (c :: s)
  = match str_split sep s with
    | p :: ps => (c :: p) :: ps
    | [] => []
    end.
Proof.
  intros H. unfold str_split. simpl. rewrite H.
  by destruct (split_from sep s 0).
Qed.

Lemma str_split_sep sep b :
  sep ≠ [] → str_split sep (sep ++ b) = [] :: str_split sep b.
Proof.
  intros Hsep. destruct sep as [|a sep]; [done|].
  unfold str_split.
  assert (split_from (a :: sep) ((a :: sep) ++ b) 0
          = ([], let '(p, ps) := split_from (a :: sep) (sep ++ b)
                                   (length sep) in p :: ps)) as ->.
  { change ((a :: sep) ++ b) with (a :: (sep ++ b)).
    cbn [split_from].
    change (a :: (sep ++ b)) with ((a :: sep) ++ b).
    rewrite startswith_self.
    replace (length (a :: sep) - 1) with (length sep) by (simpl; lia).
    by destruct (split_from (a :: sep) (sep ++ b) (length sep)). }
  rewrite split_from_skip. by destruct (split_from (a :: sep) b 0).
Qed.

(** Splitting after a piece that is clear of the separator. *)
Lemma str_split_app sep a b :
  sep ≠ [] → clear_of sep a = true →
  str_split sep (a ++ sep ++ b) = a :: str_split sep b.
Proof.
  intros Hsep. induction a as [|c a IH]; intros Hc.
  - change ([] ++ sep ++ b) with (sep ++ b). by apply str_split_sep.
  - simpl in Hc. apply andb_true_iff in Hc as [Hc1 Hc2].
    apply negb_true_iff in Hc1.
    simpl app. rewrite str_split_cons.
    + by rewrite IH.
    + change (c :: a ++ sep ++ b) with ((c :: a) ++ sep ++ b).
      rewrite app_assoc, startswith_app; [done|].
      rewrite length_app. lia.
Qed.

Lemma clear_of_contains sep a :
  sep ≠ [] → clear_of sep a = true → contains sep a = false.
Proof.
  intros Hsep. induction a as [|c a IH]; intros Hc.
  - by destruct sep.
  - simpl in Hc. apply andb_true_iff in Hc as [Hc1 Hc2].
    apply negb_true_iff in Hc1.
    change (contains sep (c :: a))
      with (startswith sep (c :: a) || contains sep a).
    rewrite IH by done. rewrite orb_false_r.
    destruct (decide (length sep ≤ length (c :: a))) as [Hle|Hgt].
    + by rewrite <- (startswith_app sep (c :: a) sep).
    + apply startswith_longer. lia.
Qed.

(** A string without the separator is one piece. *)
Lemma str_split_none sep s :
  contains sep s = false → str_split sep s = [s].
Proof.
  induction s as [|c s IH]; intros Hc; [done|].
  change (contains sep (c :: s))
    with (startswith sep (c :: s) || contains sep s) in Hc.
  apply orb_false_iff in Hc as [H1 H2].
  rewrite str_split_cons by done. by rewrite IH.
Qed.

(** Joining pieces that are clear of the separator, then splitting,
    gives the pieces back. *)
Lemma str_split_join sep parts :
  sep ≠ [] → parts ≠ [] →
  Forall (λ p, clear_of sep p = true) parts →
  str_split sep (str_join sep parts) = parts.
Proof.
  intros Hsep Hne Hall. induction parts as [|p ps IH]; [done|].
  apply Forall_cons in Hall as [Hp Hps].
  destruct ps as [|q ps].
  - simpl. apply str_split_none. by apply clear_of_contains.
  - change (str_join sep (p :: q :: ps))
      with (p ++ sep ++ str_join sep (q :: ps)).
    rewrite str_split_app by done. by rewrite IH.
Qed.

Lemma startswith_cons_ne a p c s :
  a ≠ c → startswith (a :: p) (c :: s) = false.
Proof. intros H. simpl. by rewrite (proj2 (N.eqb_neq a c)). Qed.

Lemma startswith_cons_eq a p s :
  startswith (a :: p) (a :: s) = startswith p s.
Proof. simpl. by rewrite N.eqb_refl. Qed.

Lemma clear_of_cons sep c a :
  clear_of sep (c :: a)
  = negb (startswith sep ((c :: a) ++ sep)) && clear_of sep a.
Proof. reflexivity. Qed.

(** Pieces without a line break are clear of the line break and of the
    blank line. *)
Lemma clear_of_NL s : 10%N ∉ s → clear_of NL s = true.
Proof.
  induction s as [|c s IH]; intros Hs; [done|].
  apply not_elem_of_cons in Hs as [Hc Hs].
  rewrite clear_of_cons, IH by done.
  unfold NL at 1. simpl app. by rewrite startswith_cons_ne.
Qed.

Lemma clear_of_NLNL_line s : 10%N ∉ s → clear_of (NL ++ NL) s = true.
Proof.
  induction s as [|c s IH]; intros Hs; [done|].
  apply not_elem_of_cons in Hs as [Hc Hs].
  rewrite clear_of_cons, IH by done.
  change (NL ++ NL) with [10%N; 10%N] at 1. simpl app.
  by rewrite startswith_cons_ne.
Qed.

Lemma clear_of_NLNL_app x y :
  10%N ∉ x →
  match y with d :: _ => d ≠ 10%N | [] => False end →
  clear_of (NL ++ NL) y = true →
  clear_of (NL ++ NL) (x ++ NL ++ y) = true.
Proof.
  intros Hx Hy Hcy. induction x as [|c x IH].
  - destruct y as [|d y]; [done|].
    change ([] ++ NL ++ d :: y) with (10%N :: d :: y).
    rewrite clear_of_cons, Hcy.
    change (NL ++ NL) with [10%N; 10%N] at 1. simpl app.
    rewrite startswith_cons_eq, startswith_cons_ne; [done|].
    by intros <-.
  - apply not_elem_of_cons in Hx as [Hc Hx].
    change ((c :: x) ++ NL ++ y) with (c :: (x ++ NL ++ y)).
    rewrite clear_of_cons, IH by done.
    change (NL ++ NL) with [10%N; 10%N] at 1. simpl app.
    by rewrite startswith_cons_ne.
Qed.

End split_join.

(** ** The marker of the timestamp line, and trimming *)

Section marker_and_trim.

Lemma startswith_needs pre x post s :
  startswith (pre ++ x :: post) s = true → s !! length pre = Some x.
Proof.
  revert s. induction pre as [|a pre IH]; intros [|c s]; simpl; try done.
  - intros [E _]%andb_true_iff. by apply N.eqb_eq in E as ->.
  - intros [_ H]%andb_true_iff. by apply IH.
Qed.

(** A string without [>] is clear of the marker [" --> "]. *)
Lemma clear_of_marker a : 62%N ∉ a → clear_of (py " --> ") a = true.
Proof.
  induction a as [|c a IH]; intros Ha; [done|].
  rewrite clear_of_cons.
  rewrite IH by (by apply not_elem_of_cons in Ha as [_ ?]).
  rewrite andb_true_r. apply negb_true_iff.
  destruct (startswith (py " --> ") ((c :: a) ++ py " --> ")) eqn:E; [|done].
  apply (startswith_needs (py " --") 62 (py " ")) in E.
  exfalso. apply Ha.
  change (length (py " --")) with 3 in E.
  destruct a as [|c1 [|c2 [|c3 a]]]; try by vm_compute in E.
  simpl in E. injection E as ->. do 3 right. left.
Qed.

Lemma contains_app_r sub x s :
  contains sub s = true → contains sub (x ++ s) = true.
Proof.
  intros H. induction x as [|c x IH]; [done|].
  change (contains sub ((c :: x) ++ s))
    with (startswith sub (c :: (x ++ s)) || contains sub (x ++ s)).
  by rewrite IH, orb_true_r.
Qed.

Lemma contains_self sub y : contains sub (sub ++ y) = true.
Proof.
  destruct (sub ++ y) eqn:E; simpl; rewrite <- E, startswith_self; done.
Qed.

(** A timestamp line written with the spaced marker contains [-->]. *)
Lemma contains_arrow a b :
  contains (py "-->") (a ++ py " --> " ++ b) = true.
Proof.
  change (a ++ py " --> " ++ b)
    with (a ++ ([32%N] ++ (py "-->" ++ (32%N :: b)))).
  apply contains_app_r, contains_app_r, contains_self.
Qed.

Lemma lstrip_split s :
  ∃ ws, s = ws ++ lstrip s ∧ Forall (λ c, isspace c = true) ws.
Proof.
  induction s as [|c s (ws & E & Hws)]; simpl; [by exists []|].
  destruct (isspace c) eqn:Hc.
  - exists (c :: ws). split; [simpl; by rewrite <- E|]. by constructor.
  - by exists [].
Qed.

Lemma lstrip_spaces ws s :
  Forall (λ c, isspace c = true) ws → lstrip (ws ++ s) = lstrip s.
Proof.
  induction ws as [|c ws IH]; intros H; [done|].
  apply Forall_cons in H as [Hc H]. simpl. rewrite Hc. by apply IH.
Qed.

Lemma strip_spaces ws s :
  Forall (λ c, isspace c = true) ws → strip (ws ++ s) = strip s.
Proof. intros H. unfold strip. by rewrite lstrip_spaces. Qed.

Lemma strip_all_spaces ws :
  Forall (λ c, isspace c = true) ws → strip ws = [].
Proof.
  intros H. rewrite <- (app_nil_r ws). by rewrite strip_spaces.
Qed.

(** A trimmed string starts and ends without a blank. *)
Lemma trimmed_starts_clean s : strip s = s → starts_clean s.
Proof.
  intros <-. apply rstrip_clean, lstrip_clean.
Qed.

Lemma trimmed_rstrip s : strip s = s → rstrip s = s.
Proof.
  intros H. pose proof (trimmed_starts_clean s H) as Hc.
  unfold strip in H. by rewrite (lstrip_fixed s Hc) in H.
Qed.

Lemma starts_clean_app x y : starts_clean x → x ≠ [] → starts_clean (x ++ y).
Proof. by destruct x. Qed.

(** Joining a string that starts clean with a trimmed one gives a
    trimmed string. *)
Lemma trimmed_app x y :
  starts_clean x → x ≠ [] → strip y = y → y ≠ [] →
  strip (x ++ y) = x ++ y.
Proof.
  intros Hx Hxne Hy Hyne. unfold strip.
  rewrite (lstrip_fixed (x ++ y)) by (by apply starts_clean_app).
  apply trimmed_rstrip in Hy. unfold rstrip in *.
  assert (lstrip (reverse y) = reverse y) as Hr.
  { rewrite <- Hy at 2. by rewrite reverse_involutive. }
  assert (starts_clean (reverse y)) as Hcl.
  { rewrite <- Hr. apply lstrip_clean. }
  assert (reverse y ≠ []) as Hrne.
  { intros E. apply Hyne. by rewrite <- (reverse_involutive y), E. }
  rewrite reverse_app.
  rewrite (lstrip_fixed (reverse y ++ reverse x))
    by (by apply starts_clean_app).
  by rewrite <- reverse_app, reverse_involutive.
Qed.

Lemma plain_spec s : plain s = true ↔ (10%N ∉ s) ∧ strip s = s.
Proof.
  unfold plain. rewrite andb_true_iff, !bool_decide_eq_true. done.
Qed.

End marker_and_trim.

(** ** The speaker pattern *)

Section speaker_pattern.

Lemma run_Rep cl min p s pos c :
  Re.run (Re.Rep cl min :: p) s pos c
  = rep_loop cl min (λ s pos, Re.run p s pos c) s pos 0.
Proof. reflexivity. Qed.

(** The longest repetition is tried first: when the rest of the match
    succeeds after the whole run [xs], that is the result. *)
Lemma rep_loop_greedy cl min k xs rest pos n r :
  Forall (λ c, Re.in_class cl c = true) xs →
  match rest with c :: _ => Re.in_class cl c = false | [] => True end →
  min ≤ n + length xs →
  k rest (pos + length xs) = Some r →
  rep_loop cl min k (xs ++ rest) pos n = Some r.
Proof.
  revert pos n. induction xs as [|x xs IH]; intros pos n Hxs Hrest Hmin Hk.
  - simpl in *. rewrite Nat.add_0_r in Hmin, Hk.
    apply Nat.leb_le in Hmin.
    destruct rest as [|c rest]; simpl; [by rewrite Hmin|].
    by rewrite Hrest, Hmin.
  - apply Forall_cons in Hxs as [Hx Hxs]. simpl in *. rewrite Hx.
    fold (rep_loop cl min k).
    rewrite (IH (S pos) (S n)); [done..| |].
    + lia.
    + by rewrite <- Hk, Nat.add_succ_comm.
Qed.

(** When the rest of the match fails after the whole run and succeeds
    one character earlier, that is the result. *)
Lemma rep_loop_back_one cl min k xs w pos n r :
  Forall (λ c, Re.in_class cl c = true) xs →
  Re.in_class cl w = true →
  min ≤ n + length xs →
  k [] (S (pos + length xs)) = None →
  k [w] (pos + length xs) = Some r →
  rep_loop cl min k (xs ++ [w]) pos n = Some r.
Proof.
  revert pos n. induction xs as [|x xs IH]; intros pos n Hxs Hw Hmin Hk0 Hk.
  - simpl in *. rewrite Nat.add_0_r in Hmin, Hk, Hk0.
    rewrite Hw, Hk0. apply Nat.leb_le in Hmin.
    destruct (min <=? S n)%nat; by rewrite Hmin.
  - apply Forall_cons in Hxs as [Hx Hxs]. simpl in *. rewrite Hx.
    fold (rep_loop cl min k).
    rewrite (IH (S pos) (S n)); [done..| | |].
    + lia.
    + by rewrite <- Hk0, Nat.add_succ_comm.
    + by rewrite <- Hk, Nat.add_succ_comm.
Qed.

(** When the rest of the match fails wherever the repetition stops, the
    repetition fails. *)
Lemma rep_loop_fail cl min k (Q : pystr → Prop) s pos n :
  (∀ c t, Q (c :: t) → Q t) →
  (∀ t p, Q t → k t p = None) →
  Q s → rep_loop cl min k s pos n = None.
Proof.
  intros Htail Hk. revert pos n.
  induction s as [|c s IH]; intros pos n HQ; simpl.
  - rewrite Hk by done. by destruct (min <=? n)%nat.
  - fold (rep_loop cl min k).
    rewrite IH by (by apply (Htail c)). rewrite Hk by done.
    by destruct (Re.in_class cl c), (min <=? n)%nat.
Qed.

(** The pattern after its first two nodes: the run of the speaker, then
    [after_speaker]. *)
Lemma re_match_speaker_pattern s :
  Re.re_match speaker_pattern s
  = rep_loop (Re.NotLit 58) 1
      (λ t p, Re.run [Re.GClose 1; Re.One (Re.Lit 58); Re.Rep Re.Space 0;
                      Re.GOpen 2; Re.Rep Re.Dot 1; Re.GClose 2; Re.Eol]
                t p (Re.open_group 1 0 (Re.Caps [] [])))
      s 0 0.
Proof. reflexivity. Qed.

(** Without a colon the pattern does not match. *)
Lemma re_match_no_colon s :
  58%N ∉ s → Re.re_match speaker_pattern s = None.
Proof.
  intros Hs. rewrite re_match_speaker_pattern.
  apply (rep_loop_fail _ _ _ (λ t, 58%N ∉ t)); [| |done].
  - intros c t Ht. by apply not_elem_of_cons in Ht as [_ ?].
  - intros [|c t] p Ht; [done|].
    apply not_elem_of_cons in Ht as [Hc _].
    cbn [Re.run Re.in_class].
    by rewrite (proj2 (N.eqb_neq c 58)).
Qed.

(** With nothing before the first colon, or nothing after it, the
    pattern does not match either. *)
Lemma re_match_colon_first rest :
  Re.re_match speaker_pattern (58%N :: rest) = None.
Proof. reflexivity. Qed.

Lemma re_match_colon_last sp :
  58%N ∉ sp → Re.re_match speaker_pattern (sp ++ [58%N]) = None.
Proof.
  intros Hs. rewrite re_match_speaker_pattern.
  apply (rep_loop_fail _ _ _
           (λ t, t = [] ∨ ∃ t', (58%N ∉ t') ∧ t = t' ++ [58%N])).
  - intros c t [?|(t' & Ht' & E)]; [done|].
    destruct t' as [|c' t']; simpl in E.
    + injection E as _ <-. by left.
    + injection E as _ ->. right. exists t'. split; [|done].
      by apply not_elem_of_cons in Ht' as [_ ?].
  - intros t p [->|(t' & Ht' & ->)]; [done|].
    destruct t' as [|c t']; [done|].
    apply not_elem_of_cons in Ht' as [Hc _].
    simpl app. cbn [Re.run Re.in_class].
    by rewrite (proj2 (N.eqb_neq c 58)).
  - right. by exists sp.
Qed.

Lemma run_after_speaker p1 rest p c :
  Re.run (Re.GClose 1 :: Re.One (Re.Lit 58) :: p1) (58%N :: rest) p c
  = Re.run p1 rest (S p) (Re.close_group 1 p c).
Proof. reflexivity. Qed.

Lemma run_GOpen g p s pos c :
  Re.run (Re.GOpen g :: p) s pos c = Re.run p s pos (Re.open_group g pos c).
Proof. reflexivity. Qed.

(** The rest of the pattern on a text [body] that has no line break:
    the group takes all of it. *)
Lemma run_text body q c :
  body ≠ [] → 10%N ∉ body →
  Re.run [Re.GOpen 2; Re.Rep Re.Dot 1; Re.GClose 2; Re.Eol] body q c
  = Some (Re.close_group 2 (q + length body) (Re.open_group 2 q c)).
Proof.
  intros Hne Hnl. rewrite run_GOpen, run_Rep.
  rewrite <- (app_nil_r body) at 1.
  apply rep_loop_greedy; [|done| |done].
  - apply Forall_forall. intros x Hx. simpl.
    apply negb_true_iff, N.eqb_neq. by intros ->.
  - destruct body; [done|]. simpl. lia.
Qed.

(** The match on a speaker, a colon and a text on one line: the first
    group is the speaker, the second is the text without the blanks
    before it, or its last blank when it has only blanks. *)
Lemma re_match_speaker sp rest :
  sp ≠ [] → 58%N ∉ sp → rest ≠ [] → 10%N ∉ rest →
  ∃ m, Re.re_match speaker_pattern (sp ++ 58%N :: rest) = Some m
       ∧ Re.group (sp ++ 58%N :: rest) m 1 = sp
       ∧ strip (Re.group (sp ++ 58%N :: rest) m 2) = strip rest.
Proof.
  intros Hsp Hcol Hrest Hnl.
  destruct (lstrip_split rest) as (ws & Erest & Hws).
  pose proof (lstrip_clean rest) as Hclean.
  assert (Forall (λ c, Re.in_class (Re.NotLit 58) c = true) sp) as Hsp_cl.
  { apply Forall_forall. intros x Hx. simpl.
    apply negb_true_iff, N.eqb_neq. by intros ->. }
  assert (Forall (λ c, Re.in_class Re.Space c = true) ws) as Hws_cl by done.
  destruct (lstrip rest) as [|b0 body] eqn:Ebody.
  - (* the text has only blanks *)
    rewrite app_nil_r in Erest. subst ws.
    destruct rest as [|w ws _] using rev_ind; [done|].
    apply Forall_app in Hws_cl as [Hws_cl Hw].
    apply Forall_cons in Hw as [Hw _].
    assert (w ≠ 10%N) as Hw10.
    { intros ->. apply Hnl, elem_of_app. right. by left. }
    eexists. split; [|split].
    + rewrite re_match_speaker_pattern.
      apply rep_loop_greedy; [done|done|destruct sp; [done|simpl; lia]|].
      rewrite run_after_speaker, run_Rep.
      apply rep_loop_back_one; [done|exact Hw|lia|reflexivity|].
      apply (run_text [w]); [done|].
      intros Hin. apply Hw10. by apply list_elem_of_singleton in Hin.
    + unfold Re.group. simpl Re.assoc. cbv iota beta.
      by rewrite Nat.sub_0_r, drop_0, take_app_length.
    + unfold Re.group. simpl Re.assoc. cbv iota beta.
      replace (sp ++ 58%N :: ws ++ [w]) with ((sp ++ 58%N :: ws) ++ [w])
        by (by rewrite <- app_assoc).
      rewrite drop_app_length'
        by (rewrite length_app; simpl; lia).
      rewrite take_ge by (simpl; lia).
      rewrite (strip_all_spaces (ws ++ [w])).
      * apply (strip_all_spaces [w]). by constructor.
      * apply Forall_app. split; [done|by constructor].
  - (* the text after its leading blanks *)
    simpl in Hclean.
    assert (10%N ∉ b0 :: body) as Hnl'.
    { intros Hin. apply Hnl. rewrite Erest. apply elem_of_app. by right. }
    eexists. split; [|split].
    + rewrite re_match_speaker_pattern.
      apply rep_loop_greedy; [done|done|destruct sp; [done|simpl; lia]|].
      rewrite run_after_speaker, run_Rep, Erest.
      apply rep_loop_greedy; [done|done|lia|].
      by apply run_text.
    + unfold Re.group. simpl Re.assoc. cbv iota beta.
      by rewrite Nat.sub_0_r, drop_0, take_app_length.
    + unfold Re.group. simpl Re.assoc. cbv iota beta.
      rewrite Erest at 1.
      replace (sp ++ 58%N :: ws ++ b0 :: body)
        with ((sp ++ 58%N :: ws) ++ b0 :: body)
        by (by rewrite <- app_assoc).
      rewrite drop_app_length'
        by (rewrite length_app; simpl; lia).
      rewrite take_ge by (simpl; lia).
      rewrite Erest. by rewrite strip_spaces.
Qed.

End speaker_pattern.

(** ** [_extract_speaker_and_text] and [_parse_timestamp] in closed form *)

Section extraction.

Lemma not_elem_of_join (x : N) sep ls :
  x ∉ sep → Forall (λ l, x ∉ l) ls → x ∉ str_join sep ls.
Proof.
  intros Hsep. induction ls as [|l ls IH]; intros Hls.
  - by intros ?%elem_of_nil.
  - apply Forall_cons in Hls as [Hl Hls]. destruct ls as [|l' ls]; [done|].
    change (str_join sep (l :: l' :: ls))
      with (l ++ sep ++ str_join sep (l' :: ls)).
    rewrite !elem_of_app. intros [?|[?|?]]; [done..|]. by apply IH.
Qed.

Lemma extract_no_colon s :
  58%N ∉ s → _extract_speaker_and_text s = ([], s).
Proof.
  intros H. unfold _extract_speaker_and_text.
  by rewrite re_match_no_colon.
Qed.

Lemma extract_on_line sp rest :
  sp ≠ [] → 58%N ∉ sp → rest ≠ [] → 10%N ∉ rest →
  _extract_speaker_and_text (sp ++ 58%N :: rest) = (strip sp, strip rest).
Proof.
  intros Hsp Hcol Hrest Hnl. unfold _extract_speaker_and_text.
  destruct (re_match_speaker sp rest Hsp Hcol Hrest Hnl)
    as (m & -> & -> & ->). done.
Qed.

Lemma parse_timestamp_marker a b :
  62%N ∉ a → 62%N ∉ b →
  _parse_timestamp (a ++ py " --> " ++ b) = (strip a, strip b).
Proof.
  intros Ha Hb. apply (parse_timestamp_two_parts _ a b []).
  rewrite str_split_app; [|done|by apply clear_of_marker].
  rewrite str_split_none; [done|].
  by apply clear_of_contains, clear_of_marker.
Qed.

(** X1. [_extract_speaker_and_text] finds no speaker, and returns the
    whole input as the text, when the input has no colon, starts with a
    colon, or ends with its first colon. *)
Theorem X1_extract_without_speaker s :
  (58%N ∉ s) ∨ (∃ rest, s = 58%N :: rest)
  ∨ (∃ sp, (58%N ∉ sp) ∧ s = sp ++ [58%N]) →
  _extract_speaker_and_text s = ([], s).
Proof.
  intros H. unfold _extract_speaker_and_text.
  assert (Re.re_match speaker_pattern s = None) as ->; [|done].
  destruct H as [H|[(rest & ->)|(sp & Hsp & ->)]].
  - by apply re_match_no_colon.
  - apply re_match_colon_first.
  - by apply re_match_colon_last.
Qed.

Lemma X1_witness :
  ((58%N ∉ py "no colon here") ∨ (∃ rest, py "no colon here" = 58%N :: rest)
   ∨ (∃ sp, (58%N ∉ sp) ∧ py "no colon here" = sp ++ [58%N]))
  ∧ _extract_speaker_and_text (py "no colon here")
    = ([], py "no colon here").
Proof.
  assert (58%N ∉ py "no colon here") as H.
  { apply (bool_decide_unpack _). by vm_compute. }
  split; [by left|].
  apply (X1_extract_without_speaker (py "no colon here")). by left.
Defined.

(** X2. On one line made of a non-empty part without colon, a colon and
    a non-empty rest, [_extract_speaker_and_text] returns the part
    before the first colon and the rest, both trimmed. *)
Theorem X2_extract_speaker_and_text sp rest :
  sp ≠ [] → 58%N ∉ sp → rest ≠ [] → 10%N ∉ rest →
  _extract_speaker_and_text (sp ++ 58%N :: rest) = (strip sp, strip rest).
Proof. apply extract_on_line. Qed.

Lemma X2_witness :
  py "Misty Pearson, South Carolina " ≠ []
  ∧ (58%N ∉ py "Misty Pearson, South Carolina ")
  ∧ py "  Hello: are you there? " ≠ []
  ∧ (10%N ∉ py "  Hello: are you there? ")
  ∧ _extract_speaker_and_text
      (py "Misty Pearson, South Carolina " ++
       58%N :: py "  Hello: are you there? ")
    = (py "Misty Pearson, South Carolina", py "Hello: are you there?").
Proof.
  assert (58%N ∉ py "Misty Pearson, South Carolina ") as H1.
  { apply (bool_decide_unpack _). by vm_compute. }
  assert (10%N ∉ py "  Hello: are you there? ") as H2.
  { apply (bool_decide_unpack _). by vm_compute. }
  split; [done|]. split; [done|]. split; [done|]. split; [done|].
  apply (X2_extract_speaker_and_text
           (py "Misty Pearson, South Carolina ")
           (py "  Hello: are you there? ")); done.
Defined.

(** X3. [_parse_timestamp] on a start, the marker [" --> "] and an end,
    neither with a [>], returns the start and the end, trimmed. *)
Theorem X3_parse_timestamp_round_trip a b :
  62%N ∉ a → 62%N ∉ b →
  _parse_timestamp (a ++ py " --> " ++ b) = (strip a, strip b).
Proof. apply parse_timestamp_marker. Qed.

Lemma X3_witness :
  (62%N ∉ py "00:00:05.640") ∧ (62%N ∉ py "00:00:17.960 ")
  ∧ _parse_timestamp (py "00:00:05.640" ++ py " --> " ++ py "00:00:17.960 ")
    = (py "00:00:05.640", py "00:00:17.960").
Proof.
  assert (62%N ∉ py "00:00:05.640") as H1.
  { apply (bool_decide_unpack _). by vm_compute. }
  assert (62%N ∉ py "00:00:17.960 ") as H2.
  { apply (bool_decide_unpack _). by vm_compute. }
  split; [done|]. split; [done|].
  apply (X3_parse_timestamp_round_trip (py "00:00:05.640")
           (py "00:00:17.960 ")); done.
Defined.

(** X4. On a line that does not contain the marker [" --> "] with its
    spaces, [_parse_timestamp] returns two empty strings; it does not
    raise. *)
Theorem X4_parse_timestamp_without_marker tl :
  contains (py " --> ") tl = false → _parse_timestamp tl = ([], []).
Proof.
  intros H. unfold _parse_timestamp. by rewrite str_split_none.
Qed.

Lemma X4_witness :
  contains (py " --> ") (py "00:00:18-->00:00:19") = false
  ∧ _parse_timestamp (py "00:00:18-->00:00:19") = ([], []).
Proof.
  split; [reflexivity|].
  apply (X4_parse_timestamp_without_marker (py "00:00:18-->00:00:19")).
  reflexivity.
Defined.

End extraction.

(** ** Blocks and documents of well-formed cues *)

Section cues.

(** X5. A block whose content lines (the third line onward) have no
    colon adds nothing: text without a speaker label is dropped. *)
Theorem X5_content_without_speaker_is_dropped
    (st : list conv * pyset) (block : pystr) :
  Forall (λ l, 58%N ∉ l) (drop 2 (str_split NL (strip block))) →
  block_body st block = Ok st.
Proof.
  intros Hls. destruct st as [cs sps]. rewrite block_body_spec.
  destruct (block_utterance block) as [u|] eqn:E; [|done].
  exfalso. revert E. unfold block_utterance, block_body.
  destruct (negb (truthy (strip block)) || str_eqb (strip block) (py "WEBVTT"));
    [done|].
  destruct (length (str_split NL (strip block)) <? 3)%nat; [done|].
  destruct (index (str_split NL (strip block)) 1) as [tl|e]; [|done].
  rewrite bind_Ok.
  destruct (negb (contains (py "-->") tl)); [done|].
  destruct (_parse_timestamp tl) as [s e].
  rewrite extract_no_colon; [done|].
  apply not_elem_of_join; [|done].
  apply (bool_decide_unpack _). by vm_compute.
Qed.

Lemma X5_witness :
  Forall (λ l, 58%N ∉ l) (drop 2 (str_split NL (strip no_speaker_block)))
  ∧ block_body ([], set_new) no_speaker_block = Ok ([], set_new).
Proof.
  assert (Forall (λ l, 58%N ∉ l)
            (drop 2 (str_split NL (strip no_speaker_block)))) as H.
  { apply (bool_decide_unpack _). by vm_compute. }
  split; [done|].
  by apply (X5_content_without_speaker_is_dropped ([], set_new)
              no_speaker_block).
Defined.

Lemma cue_ok_spec c :
  cue_ok c = true →
  (cue_id c ≠ [] ∧ (10%N ∉ cue_id c) ∧ strip (cue_id c) = cue_id c)
  ∧ ((10%N ∉ cue_start c) ∧ strip (cue_start c) = cue_start c
     ∧ (62%N ∉ cue_start c))
  ∧ ((10%N ∉ cue_end c) ∧ strip (cue_end c) = cue_end c
     ∧ (62%N ∉ cue_end c))
  ∧ (cue_speaker c ≠ [] ∧ (10%N ∉ cue_speaker c)
     ∧ strip (cue_speaker c) = cue_speaker c ∧ (58%N ∉ cue_speaker c))
  ∧ (cue_text c ≠ [] ∧ (10%N ∉ cue_text c) ∧ strip (cue_text c) = cue_text c).
Proof.
  unfold cue_ok. rewrite !andb_true_iff, !plain_spec, !truthy_nonempty,
    !bool_decide_eq_true. tauto.
Qed.

Lemma not_elem_of_literal (x : N) (s : pystr) :
  bool_decide (x ∉ s) = true → x ∉ s.
Proof. apply bool_decide_eq_true. Qed.

(** The lines of a formatted cue, and the cue as a block. *)
Lemma format_cue_lines c :
  cue_ok c = true →
  str_split NL (format_cue c)
  = [cue_id c; cue_start c ++ py " --> " ++ cue_end c;
     cue_speaker c ++ 58%N :: 32%N :: cue_text c].
Proof.
  intros (Hid & Hs & He & Hsp & Ht)%cue_ok_spec.
  unfold format_cue.
  rewrite str_split_app; [|done|apply clear_of_NL; tauto].
  replace (cue_start c ++ py " --> " ++ cue_end c ++ NL
           ++ cue_speaker c ++ py ": " ++ cue_text c)
    with ((cue_start c ++ py " --> " ++ cue_end c) ++ NL
          ++ cue_speaker c ++ 58%N :: 32%N :: cue_text c)
    by (by rewrite <- !app_assoc).
  rewrite str_split_app; [|done|].
  - rewrite str_split_none; [done|].
    apply clear_of_contains; [done|]. apply clear_of_NL.
    intros [H|H]%elem_of_app; [tauto|].
    apply elem_of_cons in H as [H|H]; [done|].
    apply elem_of_cons in H as [H|H]; [done|tauto].
  - apply clear_of_NL.
    intros [H|H]%elem_of_app; [tauto|].
    apply elem_of_app in H as [H|H]; [|tauto].
    revert H. by apply not_elem_of_literal.
Qed.

Lemma format_cue_trimmed c :
  cue_ok c = true → strip (format_cue c) = format_cue c.
Proof.
  intros (Hid & Hs & He & Hsp & Ht)%cue_ok_spec.
  unfold format_cue.
  replace (cue_id c ++ NL ++ cue_start c ++ py " --> " ++ cue_end c ++ NL
           ++ cue_speaker c ++ py ": " ++ cue_text c)
    with ((cue_id c ++ NL ++ cue_start c ++ py " --> " ++ cue_end c ++ NL
           ++ cue_speaker c ++ py ": ") ++ cue_text c)
    by (by rewrite <- !app_assoc).
  apply trimmed_app; [|by destruct (cue_id c)|tauto|tauto].
  apply starts_clean_app; [|tauto]. apply trimmed_starts_clean. tauto.
Qed.

Lemma format_cue_has_NL c : 10%N ∈ format_cue c.
Proof.
  unfold format_cue. apply elem_of_app. right.
  apply elem_of_app. left. by left.
Qed.

(** The utterance of the block of a well-formed cue. *)
Lemma block_utterance_format_cue c :
  cue_ok c = true → block_utterance (format_cue c) = Some (cue_utterance c).
Proof.
  intros Hok. pose proof (cue_ok_spec c Hok) as (Hid & Hs & He & Hsp & Ht).
  unfold block_utterance, block_body.
  rewrite (format_cue_trimmed c Hok), (format_cue_lines c Hok).
  assert (truthy (format_cue c) = true) as ->.
  { apply truthy_nonempty. intros E. pose proof (format_cue_has_NL c) as H.
    rewrite E in H. by apply elem_of_nil in H. }
  rewrite str_eqb_neq.
  2:{ intros E. pose proof (format_cue_has_NL c) as H. rewrite E in H.
      revert H. by apply not_elem_of_literal. }
  simpl negb. simpl orb. cbv iota.
  change (length [_; _; _] <? 3)%nat with false. cbv iota.
  change (index [_; _; _] 1) with
    (Ok (cue_start c ++ py " --> " ++ cue_end c)).
  rewrite bind_Ok, contains_arrow. simpl negb. cbv iota.
  rewrite parse_timestamp_marker by tauto.
  change (str_join (py " ") (drop 2 [_; _; _]))
    with (cue_speaker c ++ 58%N :: 32%N :: cue_text c).
  rewrite extract_on_line; [|tauto|tauto|done|].
  2:{ apply not_elem_of_cons. split; [done|tauto]. }
  change (strip (32%N :: cue_text c)) with (strip ([32%N] ++ cue_text c)).
  rewrite (strip_spaces [32%N] (cue_text c)) by (by constructor).
  destruct Hs as (_ & -> & _), He as (_ & -> & _),
    Hsp as (Hspne & _ & -> & _), Ht as (Htne & _ & Htt).
  rewrite !Htt.
  apply truthy_nonempty in Hspne as ->. apply truthy_nonempty in Htne as ->.
  by destruct c.
Qed.

(** X6. A well-formed cue, written as a block, adds exactly its
    utterance: the loop body appends the dictionary of the cue and adds
    its speaker. *)
Theorem X6_cue_block_round_trip (st : list conv * pyset) (c : cue) :
  cue_ok c = true →
  block_body st (format_cue c)
  = Ok (st.1 ++ [conv_of (cue_utterance c)], set_add (cue_speaker c) st.2).
Proof.
  intros Hok. destruct st as [cs sps].
  by rewrite block_body_spec, block_utterance_format_cue.
Qed.

Lemma X6_witness :
  cue_ok (Cue (py "1") (py "00:00:05.640") (py "00:00:17.960") (py "adam")
            (py "Hello there")) = true
  ∧ block_body ([], set_new)
      (lines_text ["1"; "00:00:05.640 --> 00:00:17.960";
                   "adam: Hello there"]%string)
    = Ok ([mk_conv (py "00:00:05.640") (py "00:00:17.960") (py "adam")
             (py "Hello there")], set_add (py "adam") set_new).
Proof.
  split; [reflexivity|].
  apply (X6_cue_block_round_trip ([], set_new)
           (Cue (py "1") (py "00:00:05.640") (py "00:00:17.960") (py "adam")
              (py "Hello there"))).
  reflexivity.
Defined.

End cues.

Section documents.

Lemma head_not_NL (s t : pystr) :
  s ≠ [] → 10%N ∉ s →
  match s ++ t with d :: _ => d ≠ 10%N | [] => False end.
Proof.
  destruct s as [|d s]; [done|]. intros _ H. simpl.
  intros ->. apply H. by left.
Qed.

Lemma format_cue_clear c :
  cue_ok c = true → clear_of (NL ++ NL) (format_cue c) = true.
Proof.
  intros (Hid & Hs & He & Hsp & Ht)%cue_ok_spec.
  assert (10%N ∉ py " --> ") as Hm by (by apply not_elem_of_literal).
  unfold format_cue.
  apply clear_of_NLNL_app; [tauto| |].
  - destruct (cue_start c) as [|d s] eqn:E; [done|].
    simpl. intros ->. destruct Hs as (Hs & _). apply Hs. by left.
  - replace (cue_start c ++ py " --> " ++ cue_end c ++ NL
             ++ cue_speaker c ++ py ": " ++ cue_text c)
      with ((cue_start c ++ py " --> " ++ cue_end c) ++ NL
            ++ cue_speaker c ++ py ": " ++ cue_text c)
      by (by rewrite <- !app_assoc).
    apply clear_of_NLNL_app.
    + intros [H|H]%elem_of_app; [tauto|].
      apply elem_of_app in H as [H|H]; [done|tauto].
    + apply head_not_NL; tauto.
    + apply clear_of_NLNL_line.
      intros [H|H]%elem_of_app; [tauto|].
      apply elem_of_app in H as [H|H]; [|tauto].
      revert H. by apply not_elem_of_literal.
Qed.

(** The blocks of a formatted document are the header, when there is
    one, and the cues. *)
Lemma blocks_format_document (header : bool) (cues : list cue) :
  Forall (λ c, cue_ok c = true) cues →
  (if header then [py "WEBVTT"] else []) ++ (format_cue <$> cues) ≠ [] →
  blocks (format_document header cues)
  = (if header then [py "WEBVTT"] else []) ++ (format_cue <$> cues).
Proof.
  intros Hok Hne. unfold blocks, format_document.
  apply str_split_join; [done|done|].
  apply Forall_app. split.
  - destruct header; by repeat constructor.
  - apply Forall_fmap. eapply Forall_impl; [exact Hok|].
    intros c Hc. by apply format_cue_clear.
Qed.

Lemma utterances_format_document (header : bool) (cues : list cue) :
  Forall (λ c, cue_ok c = true) cues →
  omap block_utterance (blocks (format_document header cues))
  = cue_utterance <$> cues.
Proof.
  intros Hok.
  assert (omap block_utterance (format_cue <$> cues) = cue_utterance <$> cues)
    as Hcues.
  { induction Hok as [|c cues Hc Hok IH]; [done|].
    rewrite !fmap_cons.
    change (omap block_utterance (format_cue c :: (format_cue <$> cues)))
      with (match block_utterance (format_cue c) with
            | Some u => u :: omap block_utterance (format_cue <$> cues)
            | None => omap block_utterance (format_cue <$> cues)
            end).
    by rewrite block_utterance_format_cue, IH. }
  destruct header.
  - rewrite blocks_format_document by done.
    rewrite omap_app, Hcues. done.
  - destruct cues as [|c cues]; [done|].
    rewrite blocks_format_document by done.
    by rewrite app_nil_l, Hcues.
Qed.

(** X7. A document made of well-formed cues separated by blank lines,
    with or without the header, parses to exactly the utterances of its
    cues, in order; the list of speakers holds the speakers of the cues,
    each once, in the order of the run. *)
Theorem X7_document_round_trip self path w header cues :
  read_file w path = Ok (format_document header cues) →
  Forall (λ c, cue_ok c = true) cues →
  ∃ sps,
    parse_vtt_file self path w
    = (Some [(py "conversations",
              FConvList (conv_of <$> (cue_utterance <$> cues)));
             (py "speakers", FStrList sps);
             (py "total_entries", FInt (Z.of_nat (length cues)));
             (py "file_path", FStr path)], self, w)
    ∧ NoDup sps
    ∧ ∀ s, s ∈ sps ↔ s ∈ cue_speaker <$> cues.
Proof.
  intros Hr Hok.
  exists (iter_order (hash_order w) (cue_speaker <$> cues)).
  split; [|split; [apply iter_order_NoDup|apply iter_order_elem]].
  unfold parse_vtt_file.
  rewrite Hr, bind_Ok, parse_content_spec.
  rewrite utterances_format_document by done.
  rewrite length_fmap.
  by rewrite <- (list_fmap_compose cue_utterance speaker cues).
Qed.

Lemma sample_cues_ok : Forall (λ c, cue_ok c = true) sample_cues.
Proof. repeat constructor. Qed.

Lemma X7_witness :
  read_file sample_cues_world (py "meeting.vtt")
  = Ok (format_document true sample_cues)
  ∧ Forall (λ c, cue_ok c = true) sample_cues
  ∧ ∃ sps,
      parse_vtt_file __init__ (py "meeting.vtt") sample_cues_world
      = (Some [(py "conversations",
                FConvList (conv_of <$> (cue_utterance <$> sample_cues)));
               (py "speakers", FStrList sps);
               (py "total_entries", FInt 3);
               (py "file_path", FStr (py "meeting.vtt"))],
         __init__, sample_cues_world)
      ∧ NoDup sps
      ∧ ∀ s, s ∈ sps ↔ s ∈ cue_speaker <$> sample_cues.
Proof.
  split; [reflexivity|]. split; [apply sample_cues_ok|].
  apply (X7_document_round_trip __init__ (py "meeting.vtt")
           sample_cues_world true sample_cues);
    [reflexivity|apply sample_cues_ok].
Defined.

End documents.

(** ** Invariants of the parse result and of the statistics *)

Section invariants.

Lemma parse_timestamp_trimmed tl :
  strip (_parse_timestamp tl).1 = (_parse_timestamp tl).1
  ∧ strip (_parse_timestamp tl).2 = (_parse_timestamp tl).2.
Proof.
  unfold _parse_timestamp.
  destruct (str_split (py " --> ") tl) as [|a [|b rest]]; simpl;
    by rewrite ?strip_idem.
Qed.

Lemma block_utterance_trimmed b u :
  block_utterance b = Some u → trimmed_fields u.
Proof.
  unfold block_utterance, block_body.
  destruct (negb (truthy (strip b)) || str_eqb (strip b) (py "WEBVTT"));
    [done|].
  destruct (length (str_split NL (strip b)) <? 3)%nat; [done|].
  destruct (index (str_split NL (strip b)) 1) as [tl|e]; [|done].
  rewrite bind_Ok.
  destruct (negb (contains (py "-->") tl)); [done|].
  pose proof (parse_timestamp_trimmed tl) as [Hs He].
  destruct (_parse_timestamp tl) as [s e].
  unfold _extract_speaker_and_text.
  destruct (Re.re_match _ _) as [m|]; [|done].
  destruct (truthy _ && truthy _); [|done].
  simpl. intros [= <-]. unfold trimmed_fields. simpl.
  by rewrite !strip_idem.
Qed.

(** X8. Whatever the document, every utterance [parse_vtt_file] stores
    has its four fields trimmed: no field starts or ends with a blank. *)
Theorem X8_parsed_fields_are_trimmed order content path :
  ∃ d us,
    parse_content order content path = Ok d
    ∧ dict_get d (py "conversations") = Some (FConvList (conv_of <$> us))
    ∧ Forall trimmed_fields us.
Proof.
  eexists _, (omap block_utterance (blocks content)).
  split; [apply parse_content_spec|]. split; [done|].
  apply Forall_forall. intros u Hu.
  apply list_elem_of_omap in Hu as (b & _ & Hb).
  by apply block_utterance_trimmed in Hb.
Qed.

(** X9. In the result of [parse_vtt_file] the number under
    ['total_entries'] is the length of the list under ['conversations'],
    and the list under ['speakers'] is never longer than that. *)
Theorem X9_speakers_bounded_by_entries order content path :
  ∃ d cs sps,
    parse_content order content path = Ok d
    ∧ dict_get d (py "conversations") = Some (FConvList cs)
    ∧ dict_get d (py "speakers") = Some (FStrList sps)
    ∧ dict_get d (py "total_entries") = Some (FInt (Z.of_nat (length cs)))
    ∧ length sps ≤ length cs.
Proof.
  eexists _, _, _. split; [apply parse_content_spec|].
  split; [done|]. split; [done|]. split; [by rewrite length_fmap|].
  rewrite length_fmap.
  rewrite <- (length_fmap speaker (omap block_utterance (blocks content))).
  apply submseteq_length, NoDup_submseteq; [apply iter_order_NoDup|].
  intros s. by rewrite iter_order_elem.
Qed.

Lemma sum_counts_dict_set (d : dict Z) k w :
  sum_counts (dict_set d k (match dict_get d k with
                            | Some n => n + w
                            | None => w
                            end)%Z)
  = (sum_counts d + w)%Z.
Proof.
  induction d as [|[k0 v0] d IH]; simpl; [unfold sum_counts; simpl; lia|].
  destruct (str_eqb k0 k); unfold sum_counts in *; simpl in *; lia.
Qed.

Lemma dict_set_keys {V} (d : dict V) k v :
  (dict_set d k v).*1 = if bool_decide (k ∈ d.*1) then d.*1 else d.*1 ++ [k].
Proof.
  induction d as [|[k0 v0] d IH].
  - rewrite bool_decide_eq_false_2; [done|]. by intros ?%elem_of_nil.
  - change (dict_set ((k0, v0) :: d) k v)
      with (if str_eqb k0 k then (k0, v) :: d
            else (k0, v0) :: dict_set d k v).
    destruct (str_eqb k0 k) eqn:E.
    + apply str_eqb_eq in E as ->. rewrite !fmap_cons.
      rewrite bool_decide_eq_true_2; [done|by left].
    + assert (k0 ≠ k) as Hne.
      { intros ->. by rewrite str_eqb_refl in E. }
      rewrite !fmap_cons, IH. cbn [fst].
      destruct (decide (k ∈ d.*1)) as [Hin|Hnin].
      * rewrite !bool_decide_eq_true_2; [done|by right|done].
      * rewrite !bool_decide_eq_false_2; [done| |done].
        by intros [?|?]%elem_of_cons.
Qed.

(** The word-count loop adds the words of the utterances, and appends
    each new speaker after the keys it found. *)
Lemma for_each_count_body_sum us acc r :
  Forall (λ u, speaker u ≠ [] ∧ text u ≠ []) us →
  for_each count_body acc (IConv <$> (conv_of <$> us)) = Ok r →
  sum_counts r = (sum_counts acc + total_words us)%Z
  ∧ r.*1 = acc.*1 ++ first_seen acc.*1 (speaker <$> us).
Proof.
  revert acc. induction us as [|u us IH]; intros acc Hus Hr.
  - injection Hr as <-. unfold total_words. simpl.
    rewrite app_nil_r. split; [lia|done].
  - apply Forall_cons in Hus as [[Hs _] Hus].
    rewrite !fmap_cons, for_each_cons, count_body_conv, bind_Ok in Hr
      by done.
    apply IH in Hr as [Hsum Hkeys]; [|done].
    rewrite sum_counts_dict_set in Hsum. rewrite dict_set_keys in Hkeys.
    split.
    + rewrite Hsum. unfold total_words. simpl. lia.
    + rewrite Hkeys. simpl first_seen.
      destruct (bool_decide (speaker u ∈ acc.*1)); [done|].
      by rewrite <- app_assoc.
Qed.

End invariants.

Section statistics.

Lemma get_meeting_stats_empty d :
  parsed_transcript d [] → get_meeting_stats (Some d) = Ok [].
Proof. by intros (sps & path & -> & _). Qed.

(** X10. On a parsed transcript the counts under [speaker_word_counts]
    add up to the number of words of all utterances: no word is counted
    twice or lost. *)
Theorem X10_word_counts_add_up d us :
  parsed_transcript d us →
  ∃ m, get_meeting_stats (Some d) = Ok m
       ∧ sum_counts (speaker_word_counts m) = total_words us.
Proof.
  intros Hd. destruct us as [|u us].
  - exists []. split; [by apply get_meeting_stats_empty|done].
  - destruct (last_cons_is_Some u us) as (final & Hl & _).
    pose proof Hd as (sps & path & _ & _ & _ & Hus).
    destruct (for_each_count_body (u :: us) [] Hus) as (r & Hr & _).
    eexists. split; [by apply (get_meeting_stats_loop d u us final r)|].
    change (speaker_word_counts _) with r.
    by apply for_each_count_body_sum in Hr as [-> _].
Qed.

Lemma X10_witness :
  parsed_transcript turns_transcript turns_utterances
  ∧ ∃ m, get_meeting_stats (Some turns_transcript) = Ok m
         ∧ sum_counts (speaker_word_counts m) = 3%Z.
Proof.
  split; [apply turns_transcript_parsed|].
  apply (X10_word_counts_add_up turns_transcript turns_utterances).
  apply turns_transcript_parsed.
Defined.

(** X11. On a parsed transcript the keys of [speaker_word_counts] are
    the speakers in the order in which they first speak. *)
Theorem X11_speakers_in_order_of_first_utterance d us :
  parsed_transcript d us →
  ∃ m, get_meeting_stats (Some d) = Ok m
       ∧ (speaker_word_counts m).*1 = first_seen [] (speaker <$> us).
Proof.
  intros Hd. destruct us as [|u us].
  - exists []. split; [by apply get_meeting_stats_empty|done].
  - destruct (last_cons_is_Some u us) as (final & Hl & _).
    pose proof Hd as (sps & path & _ & _ & _ & Hus).
    destruct (for_each_count_body (u :: us) [] Hus) as (r & Hr & _).
    eexists. split; [by apply (get_meeting_stats_loop d u us final r)|].
    change (speaker_word_counts _) with r.
    by apply for_each_count_body_sum in Hr as [_ ->].
Qed.

Lemma X11_witness :
  parsed_transcript turns_transcript turns_utterances
  ∧ ∃ m, get_meeting_stats (Some turns_transcript) = Ok m
         ∧ (speaker_word_counts m).*1 = [py "A"; py "B"].
Proof.
  split; [apply turns_transcript_parsed|].
  apply (X11_speakers_in_order_of_first_utterance turns_transcript
           turns_utterances).
  apply turns_transcript_parsed.
Defined.

Lemma split_ws_from_cur s cur : cur ≠ [] → split_ws_from s cur ≠ [].
Proof.
  revert cur. induction s as [|c s IH]; intros cur Hcur; simpl.
  - by apply truthy_nonempty in Hcur as ->.
  - destruct (isspace c); [by apply truthy_nonempty in Hcur as ->|].
    by apply IH.
Qed.

(** A trimmed, non-empty text has at least one word. *)
Lemma word_count_trimmed t :
  t ≠ [] → strip t = t → (1 ≤ word_count t)%Z.
Proof.
  intros Hne Ht. apply trimmed_starts_clean in Ht.
  destruct t as [|c t]; [done|]. simpl in Ht.
  unfold word_count, split_ws. simpl. rewrite Ht.
  pose proof (split_ws_from_cur t [c]) as H.
  destruct (split_ws_from t [c]); [exfalso; by apply H|]. simpl length. lia.
Qed.

Lemma dict_get_elem {V} (d : dict V) k v :
  dict_get d k = Some v → ∃ k', (k', v) ∈ d.
Proof.
  induction d as [|[k0 v0] d IH]; simpl; [done|].
  destruct (str_eqb k0 k).
  - intros [= ->]. exists k0. by left.
  - intros (k' & Hk')%IH. exists k'. by right.
Qed.

Lemma Forall_dict_set {V} (P : V → Prop) (d : dict V) k v :
  Forall (λ kv, P kv.2) d → P v → Forall (λ kv, P kv.2) (dict_set d k v).
Proof.
  intros Hd Hv. induction d as [|[k0 v0] d IH]; simpl.
  - by constructor.
  - apply Forall_cons in Hd as [H0 Hd].
    destruct (str_eqb k0 k); constructor; auto.
Qed.

Lemma for_each_count_body_positive us acc r :
  Forall (λ u, speaker u ≠ [] ∧ (1 ≤ word_count (text u))%Z) us →
  Forall (λ kv, (1 ≤ kv.2)%Z) acc →
  for_each count_body acc (IConv <$> (conv_of <$> us)) = Ok r →
  Forall (λ kv, (1 ≤ kv.2)%Z) r.
Proof.
  revert acc. induction us as [|u us IH]; intros acc Hus Hacc Hr.
  - by injection Hr as <-.
  - apply Forall_cons in Hus as [[Hs Hw] Hus].
    rewrite !fmap_cons, for_each_cons, count_body_conv, bind_Ok in Hr
      by done.
    apply IH in Hr; [done|done|].
    apply (Forall_dict_set (λ v, (1 ≤ v)%Z)); [done|].
    destruct (dict_get acc (speaker u)) as [n|] eqn:E; [|done].
    apply dict_get_elem in E as (k' & Hk').
    rewrite Forall_forall in Hacc. apply Hacc in Hk'. simpl in Hk'. lia.
Qed.

(** X12. Whatever the document, every speaker that
    [get_meeting_stats] lists for its parse result has a count of at
    least one word. *)
Theorem X12_every_listed_speaker_has_words order content path :
  ∃ d m,
    parse_content order content path = Ok d
    ∧ get_meeting_stats (Some d) = Ok m
    ∧ Forall (λ kv, (1 ≤ kv.2)%Z) (speaker_word_counts m).
Proof.
  destruct (parse_content_parsed order content path) as (d & Hd & Hp).
  exists d.
  assert (Forall trimmed_fields (omap block_utterance (blocks content)))
    as Htrim.
  { apply Forall_forall. intros u Hu.
    apply list_elem_of_omap in Hu as (b & _ & Hb).
    by apply block_utterance_trimmed in Hb. }
  destruct (omap block_utterance (blocks content)) as [|u us] eqn:E.
  - exists []. split; [done|]. split; [|by constructor].
    by apply get_meeting_stats_empty.
  - destruct (last_cons_is_Some u us) as (final & Hl & _).
    pose proof Hp as (sps & p & _ & _ & _ & Hus).
    destruct (for_each_count_body (u :: us) [] Hus) as (r & Hr & _).
    eexists. split; [done|].
    split; [by apply (get_meeting_stats_loop d u us final r)|].
    change (speaker_word_counts _) with r.
    apply (for_each_count_body_positive (u :: us) [] r); [|by constructor|done].
    rewrite Forall_forall in Hus, Htrim. apply Forall_forall. intros x Hx.
    destruct (Hus x Hx) as [Hs Ht], (Htrim x Hx) as (_ & _ & _ & Htt).
    split; [done|]. by apply word_count_trimmed.
Qed.

Lemma str_join_nonempty sep l ls : l ≠ [] → str_join sep (l :: ls) ≠ [].
Proof. destruct l; [done|]. by destruct ls. Qed.

(** X13. On a parsed transcript [get_conversation_text] returns the
    empty string exactly when there is no utterance. *)
Theorem X13_text_is_empty_only_without_utterances d us :
  parsed_transcript d us →
  (get_conversation_text (Some d) = Ok [] ↔ us = []).
Proof.
  intros Hd. rewrite (get_conversation_text_parsed d us Hd). split.
  - intros [= H]. destruct us as [|u us]; [done|]. exfalso. revert H.
    unfold narrative, pairs. rewrite fmap_cons.
    destruct (merge_turns_head (speaker u) (text u)
                ((λ u0, (speaker u0, text u0)) <$> us))
      as (t' & turns & ->).
    rewrite fmap_cons. apply str_join_nonempty.
    unfold turn_line. simpl. by destruct (speaker u).
  - by intros ->.
Qed.

Lemma X13_witness :
  parsed_transcript turns_transcript turns_utterances
  ∧ (get_conversation_text (Some turns_transcript) = Ok []
     ↔ turns_utterances = []).
Proof.
  split; [apply turns_transcript_parsed|].
  apply (X13_text_is_empty_only_without_utterances turns_transcript
           turns_utterances).
  apply turns_transcript_parsed.
Defined.

(** X14. The three methods on a document of well-formed cues, at least
    one: the text is the narrative of the cues, the duration runs from
    the start of the first cue to the end of the last one, and the
    counts of entries and of speakers are those of the cues. *)
Theorem X14_pipeline_on_well_formed_document
    self path w (header : bool) (c : cue) (cues : list cue) :
  read_file w path = Ok (format_document header (c :: cues)) →
  Forall (λ c, cue_ok c = true) (c :: cues) →
  ∃ d final counts,
    parse_vtt_file self path w = (Some d, self, w)
    ∧ last (c :: cues) = Some final
    ∧ get_conversation_text (Some d)
      = Ok (narrative (cue_utterance <$> c :: cues))
    ∧ get_meeting_stats (Some d)
      = Ok [(py "duration",
             FStr (cue_start c ++ py " to " ++ cue_end final));
            (py "total_speakers",
             FInt (Z.of_nat
                     (length (remove_dups (cue_speaker <$> c :: cues)))));
            (py "total_entries", FInt (Z.of_nat (length (c :: cues))));
            (py "speaker_word_counts", FCounts counts)].
Proof.
  intros Hr Hok.
  destruct (parse_vtt_file_readable self path w _ Hr) as (d & Hd & _ & Hp).
  rewrite utterances_format_document in Hp by done.
  destruct (last_cons_is_Some c cues) as (final & Hl & _).
  assert (last (cue_utterance <$> c :: cues) = Some (cue_utterance final))
    as Hl' by (by rewrite fmap_last, Hl).
  rewrite fmap_cons in Hl', Hp.
  destruct (get_meeting_stats_parsed d _ _ _ Hp Hl') as (counts & Hm & _).
  exists d, final, counts. split; [done|]. split; [done|].
  split; [by apply get_conversation_text_parsed|].
  rewrite Hm. destruct Hp as (sps & p & -> & Hnd & Hin & _).
  change (speakers_of _) with sps.
  rewrite (distinct_length sps (cue_speaker <$> c :: cues)); [|done|].
  - simpl length. by rewrite length_fmap.
  - intros s. rewrite Hin, <- fmap_cons.
    by rewrite <- (list_fmap_compose cue_utterance speaker (c :: cues)).
Qed.

Lemma X14_witness :
  read_file sample_cues_world (py "meeting.vtt")
  = Ok (format_document true sample_cues)
  ∧ Forall (λ c, cue_ok c = true) sample_cues
  ∧ ∃ d final counts,
      parse_vtt_file __init__ (py "meeting.vtt") sample_cues_world
      = (Some d, __init__, sample_cues_world)
      ∧ last sample_cues = Some final
      ∧ get_conversation_text (Some d)
        = Ok (narrative (cue_utterance <$> sample_cues))
      ∧ get_meeting_stats (Some d)
        = Ok [(py "duration", FStr (py "00:00:05.640" ++ py " to "
                                     ++ cue_end final));
              (py "total_speakers", FInt 2);
              (py "total_entries", FInt 3);
              (py "speaker_word_counts", FCounts counts)].
Proof.
  split; [reflexivity|]. split; [apply sample_cues_ok|].
  apply (X14_pipeline_on_well_formed_document __init__ (py "meeting.vtt")
           sample_cues_world true
           (Cue (py "1") (py "00:00:05.640") (py "00:00:17.960") (py "adam")
              (py "Hello there"))
           (tail sample_cues));
    [reflexivity|apply sample_cues_ok].
Defined.

End statistics.

(** ** The key file of [Config] *)

Section config.

Lemma file_lines_one s : 10%N ∉ s → file_lines (s ++ NL) = [s ++ NL].
Proof.
  induction s as [|c s IH]; intros Hs; [done|].
  apply not_elem_of_cons in Hs as [Hc Hs].
  change (file_lines ((c :: s) ++ NL))
    with (if (c =? 10)%N then [c] :: file_lines (s ++ NL)
          else match file_lines (s ++ NL) with
               | l :: ls => (c :: l) :: ls
               | [] => [[c]]
               end).
  rewrite IH by done. by rewrite (proj2 (N.eqb_neq c 10)) by done.
Qed.

Lemma split_once_key value :
  split_once (py "=") (ENV_KEY ++ value) = [py "GEMINI_API_KEY"; value].
Proof. reflexivity. Qed.

(** Blanks at the end do not change the trimmed string. *)
Lemma strip_app_spaces s ws :
  Forall (λ c, isspace c = true) ws → strip (s ++ ws) = strip s.
Proof.
  intros Hws. destruct (lstrip_split s) as (ws0 & Es & Hws0).
  unfold strip. rewrite Es at 1. rewrite <- app_assoc, lstrip_spaces by done.
  pose proof (lstrip_clean s) as Hcl.
  destruct (lstrip s) as [|c r] eqn:E.
  - rewrite app_nil_l. rewrite <- (app_nil_r ws).
    by rewrite lstrip_spaces.
  - rewrite (lstrip_fixed ((c :: r) ++ ws)) by done.
    unfold rstrip. rewrite reverse_app, lstrip_spaces; [done|].
    by apply Forall_reverse.
Qed.

Lemma find_key_none lines :
  Forall (λ l, startswith ENV_KEY l = false) lines →
  find_key lines = Ok None.
Proof.
  induction 1 as [|l ls Hl _ IH]; [done|]. cbn [find_key]. by rewrite Hl.
Qed.

(** X15. A key that was saved is loaded back trimmed, whatever else it
    contains (also [=]), when it has no line break and the file reads
    back as it was written. *)
Theorem X15_saved_key_is_loaded_back api_key w :
  env_write w (ENV_KEY ++ api_key ++ NL)
  = (None, Some (ENV_KEY ++ api_key ++ NL, None)) →
  10%N ∉ api_key →
  load_api_key_from_file (save_api_key_to_file api_key w)
  = Some (strip api_key)
  ∧ cfg_stdout (save_api_key_to_file api_key w)
    = cfg_stdout w ++ [API_key_saved].
Proof.
  intros Hw Hnl. unfold save_api_key_to_file. rewrite Hw.
  split; [|done].
  unfold load_api_key_from_file. cbn [env_file].
  rewrite app_assoc, file_lines_one.
  2:{ intros [H|H]%elem_of_app; [|done].
      revert H. apply (bool_decide_unpack _). by vm_compute. }
  cbn [find_key]. rewrite <- app_assoc, startswith_self, split_once_key.
  cbn [index lookup list_lookup]. rewrite !bind_Ok.
  by rewrite (strip_app_spaces api_key NL) by (by repeat constructor).
Qed.

Lemma X15_witness :
  env_write fresh_world (ENV_KEY ++ py " AIza=Sy==  " ++ NL)
  = (None, Some (ENV_KEY ++ py " AIza=Sy==  " ++ NL, None))
  ∧ (10%N ∉ py " AIza=Sy==  ")
  ∧ load_api_key_from_file
      (save_api_key_to_file (py " AIza=Sy==  ") fresh_world)
    = Some (py "AIza=Sy==")
  ∧ cfg_stdout (save_api_key_to_file (py " AIza=Sy==  ") fresh_world)
    = [API_key_saved].
Proof.
  assert (10%N ∉ py " AIza=Sy==  ") as H.
  { apply (bool_decide_unpack _). by vm_compute. }
  split; [reflexivity|]. split; [done|].
  apply (X15_saved_key_is_loaded_back (py " AIza=Sy==  ") fresh_world);
    [reflexivity|done].
Defined.

(** X16. [load_api_key_from_file] returns [None] when the file does not
    exist, and when no line that is read starts with [GEMINI_API_KEY=],
    whether or not reading raises in the end. *)
Theorem X16_no_key_is_None w :
  env_file w = None
  ∨ (∃ text raised,
       env_file w = Some (text, raised)
       ∧ Forall (λ l, startswith ENV_KEY l = false) (file_lines text)) →
  load_api_key_from_file w = None.
Proof.
  intros [H|(text & raised & H & Hlines)]; unfold load_api_key_from_file;
    rewrite H; [done|].
  rewrite find_key_none by done. rewrite bind_Ok. by destruct raised.
Qed.

Lemma X16_witness :
  (env_file fresh_world = None
   ∨ (∃ text raised,
        env_file fresh_world = Some (text, raised)
        ∧ Forall (λ l, startswith ENV_KEY l = false) (file_lines text)))
  ∧ load_api_key_from_file fresh_world = None.
Proof.
  split; [by left|].
  apply (X16_no_key_is_None fresh_world). by left.
Defined.

End config.
